(** * Chat relay servers: buffered and streamed aggregation of agent events

    A shallow embedding of the three FastAPI front-ends
    [src/app/server.py], [src/judge/app/server.py] and
    [src/orchestrator/app/server.py].

    Python values are modelled as the interpreter has them: a [str] is a
    sequence of Unicode code points, [None] is [None] of an option, a
    [dict] with string keys and values is an association list in insertion
    order.  The session service and the agent runner are objects of the
    ADK library; the handlers are written against an interface of them and
    every call is recorded in a trace. *)

From Stdlib Require Import NArith List Lia.
From Stdlib Require PrimFloat.
From stdpp Require Import base option list strings gmap.

Open Scope N_scope.
Open Scope list_scope.

(** ** Python strings *)

Module Py.

(** A Python [str]: its code points, in order. *)
Definition str := list N.

(** An ASCII literal of the source, as a [str]. *)
Definition lit (s : string) : str :=
  map (fun a => N.of_nat (Ascii.nat_of_ascii a)) (String.list_ascii_of_string s).

Definition newline : str := [10].
Definition dquote : str := [34].

(** [c.isspace()] for one code point: the table of
    [_PyUnicode_IsWhitespace]. *)
Definition isspace (c : N) : bool :=
  ((9 <=? c) && (c <=? 13)) || ((28 <=? c) && (c <=? 32))
  || (c =? 133) || (c =? 160) || (c =? 5760)
  || ((8192 <=? c) && (c <=? 8202))
  || (c =? 8232) || (c =? 8233) || (c =? 8239) || (c =? 8287)
  || (c =? 12288).

Fixpoint lstrip (s : str) : str :=
  match s with
  | [] => []
  | c :: s' => if isspace c then lstrip s' else s
  end.

Definition rstrip (s : str) : str := rev (lstrip (rev s)).

(** [s.strip()]: whitespace removed at both ends. *)
Definition strip (s : str) : str := rstrip (lstrip s).

(** [sep.join(xs)]. *)
Fixpoint join (sep : str) (xs : list str) : str :=
  match xs with
  | [] => []
  | [x] => x
  | x :: xs' => x ++ sep ++ join sep xs'
  end.

(** Truth value of an optional string ([None] and the empty string are
    false) and of an optional list ([None] and [[]] are false). *)
Definition truthy {A} (o : option (list A)) : bool :=
  match o with
  | Some (_ :: _) => true
  | _ => false
  end.

(** The value read once the test [truthy] has passed. *)
Definition get {A} (o : option (list A)) : list A := default [] o.

(** A [dict[str, str]], keys in insertion order. *)
Definition dict := list (str * str).

End Py.

Import Py.

(** ** [json.dumps] on a [dict[str, str]]

    The default encoder: [ensure_ascii=True], separators [", "] and
    [": "]. *)

Module Json.

Definition hex_digit (n : N) : N :=
  if n <? 10 then 48 + n else 87 + n.

(** ['{0:04x}'.format(n)] for [n < 0x10000]. *)
Definition hex4 (n : N) : str :=
  [ hex_digit (N.shiftr n 12 mod 16); hex_digit (N.shiftr n 8 mod 16);
    hex_digit (N.shiftr n 4 mod 16); hex_digit (n mod 16) ].

Definition backslash : N := 92.

Definition u_escape (n : N) : str := [backslash; 117] ++ hex4 n.

(** The replacement of one character by [py_encode_basestring_ascii]. *)
Definition escape_char (c : N) : str :=
  if c =? 92 then [backslash; backslash]
  else if c =? 34 then [backslash; 34]
  else if c =? 8 then [backslash; 98]
  else if c =? 12 then [backslash; 102]
  else if c =? 10 then [backslash; 110]
  else if c =? 13 then [backslash; 114]
  else if c =? 9 then [backslash; 116]
  else if (32 <=? c) && (c <=? 126) then [c]
  else if c <? 65536 then u_escape c
  else
    let n := c - 65536 in
    u_escape (N.lor 55296 (N.land (N.shiftr n 10) 1023))
    ++ u_escape (N.lor 56320 (N.land n 1023)).

Definition encode_str (s : str) : str :=
  dquote ++ flat_map escape_char s ++ dquote.

Definition encode_item (kv : str * str) : str :=
  encode_str (fst kv) ++ lit ": " ++ encode_str (snd kv).

Definition dumps (d : dict) : str :=
  lit "{" ++ join (lit ", ") (map encode_item d) ++ lit "}".

End Json.

(** ** The data the handlers read *)

(** [genai_types.Part]: only [text] is read. *)
Record Part := { text : option str }.

(** [genai_types.Content]. *)
Record Content := { role : option str; parts : option (list Part) }.

(** An event of [runner.run_async]. *)
Record Event := { author : str; content : option Content }.

(** [genai_types.Part.from_text(text=t)]. *)
Definition Part_from_text (t : str) : Part := {| text := Some t |}.

(** The request body of the three chat endpoints. *)
Record SimpleChatRequest := {
  message : str;
  user_id : str;
  session_id : str
}.

(** The pydantic defaults of [user_id] and [session_id]. *)
Definition default_request (m : str) : SimpleChatRequest :=
  {| message := m; user_id := lit "test_user"; session_id := lit "test_session" |}.

(** The [Feedback] model of the feedback endpoints (the judge and
    orchestrator servers declare it; the app server imports a model of
    the same fields). *)
Module Feedback.
Record t := {
  score : PrimFloat.float;
  text : option str;
  run_id : option str;
  user_id : option str
}.
End Feedback.

(** ** The external services

    The handlers call a session service and a runner that live in the ADK
    library.  A session is read only through its [id]. *)

Record Session := {
  id : str;
  session_app_name : str;
  session_user_id : str
}.

(** An instance of [Exception] (or of a subclass) raised by a call. *)
Inductive exn := Exception (descr : str).

Inductive result (A : Type) : Type :=
| Ok (a : A)
| Raise (e : exn).
Arguments Ok {A} a.
Arguments Raise {A} e.

(** The objects the module-level code builds: [adk_app.name],
    [runner.session_service] and [runner.run_async].  [St] is the state
    behind them.  [run_async] hands over the events of one turn and, when
    the iteration ends by an exception, that exception. *)
Class Services (St : Type) := {
  adk_app_name : str;
  get_session :
    forall (app_name user_id session_id : str), St -> result (option Session) * St;
  create_session :
    forall (app_name user_id session_id : str), St -> result Session * St;
  run_async :
    forall (user_id session_id : str) (new_message : Content),
      St -> (list Event * option exn) * St
}.

(** What a request does to the outside, in order. *)
Inductive call :=
| CallGetSession (app_name user_id session_id : str)
| CallCreateSession (app_name user_id session_id : str)
| CallRunAsync (user_id session_id : str) (new_message : Content)
| CallLogInfo (feedback : Feedback.t).

Record world (St : Type) := World { ext : St; trace : list call }.
Arguments World {St} ext trace.
Arguments ext {St} w.
Arguments trace {St} w.

(** ** A state and exception monad for the handlers *)

Section Monad.
Context {St : Type}.

Definition M (A : Type) : Type := world St -> result A * world St.

Definition ret {A} (a : A) : M A := fun w => (Ok a, w).

Definition bind {A B} (m : M A) (k : A -> M B) : M B :=
  fun w =>
    match m w with
    | (Ok a, w') => k a w'
    | (Raise e, w') => (Raise e, w')
    end.

(** [try: m / except Exception: h].  Every [exn] is an [Exception], so
    the handler takes them all; a cancellation of the task is not an
    [Exception] and is not part of this model. *)
Definition try_except {A} (m : M A) (h : M A) : M A :=
  fun w =>
    match m w with
    | (Ok a, w') => (Ok a, w')
    | (Raise _, w') => h w'
    end.

(** A call of a service: the state moves and the call is recorded. *)
Definition perform {A} (c : call) (f : St -> result A * St) : M A :=
  fun w =>
    let '(r, s') := f (ext w) in
    (r, World s' (trace w ++ [c])).

End Monad.

Notation "'let!' x ':=' m 'in' k" := (bind m (fun x => k))
  (at level 10, x name, m at level 100, k at level 200).

Section Primitives.
Context {St : Type} `{!Services St}.

Definition await_get_session (app_name user_id session_id : str)
  : M (option Session) :=
  perform (CallGetSession app_name user_id session_id)
          (get_session app_name user_id session_id).

Definition await_create_session (app_name user_id session_id : str)
  : M Session :=
  perform (CallCreateSession app_name user_id session_id)
          (create_session app_name user_id session_id).

(** The whole iteration of [runner.run_async(...)]: its events and how
    it ended.  The call itself never raises; the exception, if any,
    comes out of the iteration. *)
Definition iterate_run_async (user_id session_id : str) (new_message : Content)
  : world St -> (list Event * option exn) * world St :=
  fun w =>
    let '(r, s') := run_async user_id session_id new_message (ext w) in
    (r, World s' (trace w ++ [CallRunAsync user_id session_id new_message])).

(** The block that opens every chat handler:
<<
    try:
        session = await runner.session_service.get_session(...)
    except Exception:
        session = None
    if not session:
        session = await runner.session_service.create_session(...)
>> *)
Definition ensure_session (request : SimpleChatRequest) : M Session :=
  let! session :=
    try_except
      (await_get_session adk_app_name (user_id request) (session_id request))
      (ret None) in
  match session with
  | Some s => ret s
  | None =>
      await_create_session adk_app_name (user_id request) (session_id request)
  end.

(** [genai_types.Content(role="user", parts=[Part.from_text(text=m)])]. *)
Definition user_message (request : SimpleChatRequest) : Content :=
  {| role := Some (lit "user");
     parts := Some [Part_from_text (message request)] |}.

End Primitives.

(** ** [src/app/server.py] *)

Module App.
Section Handlers.
Context {St : Type} `{!Services St}.

(** [for part in event.content.parts: if part.text:
    final_text += part.text + "\n"]. *)
Fixpoint for_parts (final_text : str) (ps : list Part) : str :=
  match ps with
  | [] => final_text
  | part :: ps' =>
      for_parts
        (if truthy (text part)
         then final_text ++ (get (text part) ++ newline)
         else final_text)
        ps'
  end.

(** The body of the [async for]: the test
    [event.content and event.content.parts], then the loop on the
    parts. *)
Definition on_event (final_text : str) (event : Event) : str :=
  match content event with
  | Some c =>
      if truthy (parts c) then for_parts final_text (get (parts c))
      else final_text
  | None => final_text
  end.

Fixpoint for_events (final_text : str) (events : list Event) : str :=
  match events with
  | [] => final_text
  | event :: rest => for_events (on_event final_text event) rest
  end.

(** [POST /api/chat]. *)
Definition chat (request : SimpleChatRequest) : M dict :=
  let! session := ensure_session request in
  let user_msg := user_message request in
  fun w =>
    let '((events, err), w') :=
      iterate_run_async (user_id request) (id session) user_msg w in
    match err with
    | Some e => (Raise e, w')
    | None => (Ok [(lit "response", strip (for_events [] events))], w')
    end.

(** [POST /feedback]: one [logger.info], then the constant answer. *)
Definition collect_feedback (feedback : Feedback.t) : M dict :=
  fun w : world St =>
    (Ok [(lit "status", lit "success")],
     World (ext w) (trace w ++ [CallLogInfo feedback])).

End Handlers.
End App.

(** ** [src/judge/app/server.py] *)

Module Judge.
Section Handlers.
Context {St : Type} `{!Services St}.

Fixpoint for_parts (final_text : str) (ps : list Part) : str :=
  match ps with
  | [] => final_text
  | part :: ps' =>
      for_parts
        (if truthy (text part)
         then final_text ++ (get (text part) ++ newline)
         else final_text)
        ps'
  end.

Definition on_event (final_text : str) (event : Event) : str :=
  match content event with
  | Some c =>
      if truthy (parts c) then for_parts final_text (get (parts c))
      else final_text
  | None => final_text
  end.

Fixpoint for_events (final_text : str) (events : list Event) : str :=
  match events with
  | [] => final_text
  | event :: rest => for_events (on_event final_text event) rest
  end.

(** [POST /api/chat]. *)
Definition chat (request : SimpleChatRequest) : M dict :=
  let! session := ensure_session request in
  let user_msg := user_message request in
  fun w =>
    let '((events, err), w') :=
      iterate_run_async (user_id request) (id session) user_msg w in
    match err with
    | Some e => (Raise e, w')
    | None => (Ok [(lit "response", strip (for_events [] events))], w')
    end.

(** [GET /]. *)
Definition root : dict :=
  [(lit "status", lit "ok"); (lit "service", lit "judge");
   (lit "agent", adk_app_name)].

End Handlers.
End Judge.

(** ** [src/orchestrator/app/server.py] *)

Module Orchestrator.

(** The three status strings; each begins with an emoji, written here by
    its code points (U+1F50D; U+2696 U+FE0F; U+270D U+FE0F). *)
Definition researcher_msg : str :=
  [128269; 32] ++ lit "Researcher is gathering information...".
Definition judge_msg : str :=
  [9878; 65039; 32] ++ lit "Judge is evaluating findings...".
Definition content_builder_msg : str :=
  [9997; 65039; 32] ++ lit "Content Builder is writing the course...".

(** [json.dumps({"type": ty, "text": t}) + "\n"]. *)
Definition record_line (ty t : str) : str :=
  Json.dumps [(lit "type", ty); (lit "text", t)] ++ newline.

Definition progress_line (t : str) : str := record_line (lit "progress") t.
Definition result_line (t : str) : str := record_line (lit "result") t.

(** What a finished or aborted stream hands to the client: the lines
    yielded, and the exception that cut it short, if any. *)
Definition stream : Type := list str * option exn.

(** [StreamingResponse(event_generator(), media_type=...)]: the
    generator has not run yet. *)
Record StreamingResponse (St : Type) := {
  body_iterator : world St -> stream * world St;
  media_type : str
}.
Arguments body_iterator {St} s.
Arguments media_type {St} s.

Section Handlers.
Context {St : Type} `{!Services St}.

(** The [if]/[elif] chain on [event.author]: the lines it yields. *)
Definition progress (event : Event) : list str :=
  if bool_decide (author event = lit "researcher")
  then [progress_line researcher_msg]
  else if bool_decide (author event = lit "judge")
  then [progress_line judge_msg]
  else if bool_decide (author event = lit "content_builder")
  then [progress_line content_builder_msg]
  else [].

(** [for part in event.content.parts: if part.text:
    final_text += part.text]. *)
Fixpoint for_parts (final_text : str) (ps : list Part) : str :=
  match ps with
  | [] => final_text
  | part :: ps' =>
      for_parts
        (if truthy (text part)
         then final_text ++ get (text part)
         else final_text)
        ps'
  end.

Definition accumulate (final_text : str) (event : Event) : str :=
  match content event with
  | Some c =>
      if truthy (parts c) then for_parts final_text (get (parts c))
      else final_text
  | None => final_text
  end.

(** The [async for] of the generator and the [yield] that follows
    it.  When the iteration of the runner ends by an exception the
    generator ends by it too, and the last [yield] is not reached. *)
Fixpoint for_events (final_text : str) (events : list Event)
         (err : option exn) : stream :=
  match events with
  | [] =>
      match err with
      | None => ([result_line (strip final_text)], None)
      | Some e => ([], Some e)
      end
  | event :: rest =>
      let '(lines, r) := for_events (accumulate final_text event) rest err in
      (progress event ++ lines, r)
  end.

Definition event_generator (request : SimpleChatRequest) (session : Session)
           (user_msg : Content) : world St -> stream * world St :=
  fun w =>
    let '((events, err), w') :=
      iterate_run_async (user_id request) (id session) user_msg w in
    (for_events [] events err, w').

(** [POST /api/chat_stream]. *)
Definition chat_stream (request : SimpleChatRequest) : M (StreamingResponse St) :=
  let! session := ensure_session request in
  let user_msg := user_message request in
  ret {| body_iterator := event_generator request session user_msg;
         media_type := lit "application/x-ndjson" |}.

(** The request as the server runs it: the handler, then the body
    of its response iterated to the end. *)
Definition serve_chat_stream (request : SimpleChatRequest)
  : world St -> result stream * world St :=
  fun w =>
    match chat_stream request w with
    | (Ok resp, w') =>
        let '(out, w'') := body_iterator resp w' in (Ok out, w'')
    | (Raise e, w') => (Raise e, w')
    end.

(** [POST /feedback]. *)
Definition collect_feedback (feedback : Feedback.t) : M dict :=
  fun w : world St =>
    (Ok [(lit "status", lit "success")],
     World (ext w) (trace w ++ [CallLogInfo feedback])).

End Handlers.
End Orchestrator.

(** ** Reading the stream back *)

Fixpoint starts_with (p s : str) : bool :=
  match p, s with
  | [], _ => true
  | _ :: _, [] => false
  | a :: p', b :: s' => (a =? b) && starts_with p' s'
  end.

(** How every line of [json.dumps({"type": ty, ...})] begins. *)
Definition type_prefix (ty : str) : str :=
  lit "{" ++ Json.encode_str (lit "type") ++ lit ": " ++ Json.encode_str ty
  ++ lit ", ".

(** The line is a record whose [type] is [ty]. *)
Definition has_type (ty : str) (line : str) : bool :=
  starts_with (type_prefix ty) line.

Definition is_result (line : str) : bool := has_type (lit "result") line.
Definition is_progress (line : str) : bool := has_type (lit "progress") line.

(** The line [{"type": "result", "text": ""}] and its newline. *)
Definition empty_result_line : str :=
  lit "{" ++ dquote ++ lit "type" ++ dquote ++ lit ": "
  ++ dquote ++ lit "result" ++ dquote ++ lit ", "
  ++ dquote ++ lit "text" ++ dquote ++ lit ": " ++ dquote ++ dquote
  ++ lit "}" ++ newline.

(** Number of [create_session] calls for one triple in a trace. *)
Definition is_creation (app_name user_id session_id : str) (c : call) : bool :=
  match c with
  | CallCreateSession a u i =>
      bool_decide (a = app_name) && bool_decide (u = user_id)
      && bool_decide (i = session_id)
  | _ => false
  end.

Definition creations (app_name user_id session_id : str) (t : list call) : nat :=
  length (filter (fun c => is_creation app_name user_id session_id c = true) t).

(** ** Several requests in a row *)

Section Serving.
Context {St : Type} `{!Services St}.

(** The judge server answering [requests] one after the other; the
    answers are dropped, the world is kept. *)
Fixpoint serve_all (requests : list SimpleChatRequest) (w : world St)
  : world St :=
  match requests with
  | [] => w
  | request :: rest => serve_all rest (snd (Judge.chat request w))
  end.

End Serving.

(** What the handlers rely on for a session to be found again: a store
    [holds] a session under its triple from its creation on, a fetch of a
    held triple returns a session of the same [id], and no call of the
    services drops a held session. *)
Class KeepsSessions (St : Type) `{!Services St} := {
  holds : St -> str -> str -> str -> Session -> Prop;
  create_holds a u i st s st' :
    create_session a u i st = (Ok s, st') -> holds st' a u i s;
  get_returns a u i st s :
    holds st a u i s ->
    exists s' st', get_session a u i st = (Ok (Some s'), st') /\ id s' = id s;
  get_keeps a u i st s a' u' i' :
    holds st a u i s -> holds (snd (get_session a' u' i' st)) a u i s;
  create_keeps a u i st s a' u' i' :
    holds st a u i s -> (a', u', i') <> (a, u, i) ->
    holds (snd (create_session a' u' i' st)) a u i s;
  run_keeps a u i st s u' i' m :
    holds st a u i s -> holds (snd (run_async u' i' m st)) a u i s
}.

(** ** The aggregation as the specification words it *)

Module Spec.

(** The text of every part that carries non-empty text, in the order
    of the parts. *)
Fixpoint texts (ps : list Part) : list str :=
  match ps with
  | [] => []
  | p :: ps' =>
      match text p with
      | Some (c :: t) => (c :: t) :: texts ps'
      | _ => texts ps'
      end
  end.

(** [fromEvent]: nothing for an event without content or without
    parts. *)
Definition fromEvent (event : Event) : list str :=
  match content event with
  | None => []
  | Some c =>
      match parts c with
      | None => []
      | Some ps => texts ps
      end
  end.

Definition fragments (events : list Event) : list str :=
  flat_map fromEvent events.

(** Buffered policy: fragments joined by a newline, then stripped. *)
Definition buffered (events : list Event) : str :=
  strip (join newline (fragments events)).

(** Streaming policy: fragments concatenated, then stripped. *)
Definition streamed (events : list Event) : str :=
  strip (concat (fragments events)).

(** The authors that have a progress message. *)
Definition known_author (a : str) : bool :=
  bool_decide (a = lit "researcher") || bool_decide (a = lit "judge")
  || bool_decide (a = lit "content_builder").

End Spec.

(** ** A reference session store and a scripted runner

    An in-memory store keyed by the triple, and a runner that replays a
    fixed turn.  They instantiate [Services] on concrete inputs. *)

Module Ref.

Record state := {
  sessions : gmap (str * str * str) Session;
  turn : list Event * option exn
}.

Definition lookup_session (a u i : str) (st : state)
  : result (option Session) * state :=
  (Ok (sessions st !! (a, u, i)), st).

Definition insert_session (a u i : str) (st : state)
  : result Session * state :=
  let s := {| id := i; session_app_name := a; session_user_id := u |} in
  (Ok s, {| sessions := <[(a, u, i) := s]> (sessions st); turn := turn st |}).

Definition replay (u i : str) (m : Content) (st : state)
  : (list Event * option exn) * state :=
  (turn st, st).

#[export] Instance services : Services state := {|
  adk_app_name := lit "course_creation";
  get_session := lookup_session;
  create_session := insert_session;
  run_async := replay
|}.

Definition held (st : state) (a u i : str) (s : Session) : Prop :=
  sessions st !! (a, u, i) = Some s.

(** A store that has no session yet and whose runner will play
    [events]. *)
Definition fresh (events : list Event) : world state :=
  World {| sessions := ∅; turn := (events, None) |} [].

(** A service whose every fetch raises. *)
Definition failing_lookup (a u i : str) (st : state)
  : result (option Session) * state :=
  (Raise (Exception (lit "unavailable")), st).

Definition flaky : Services state := {|
  adk_app_name := lit "course_creation";
  get_session := failing_lookup;
  create_session := insert_session;
  run_async := replay
|}.

(** An event by [a] whose parts carry the texts [ts]. *)
Definition event (a : string) (ts : list (option str)) : Event :=
  {| author := lit a;
     content := Some {| role := Some (lit "model");
                        parts := Some (map Build_Part ts) |} |}.

Definition request : SimpleChatRequest := default_request (lit "hi").

(** A request of another user on the same session id. *)
Definition other_request : SimpleChatRequest :=
  {| message := lit "hello"; user_id := lit "alice";
     session_id := lit "test_session" |}.

(** Three agents in turn; only the last event carries text. *)
Definition pipeline_turn : list Event :=
  [ event "researcher" [];
    {| author := lit "judge"; content := None |};
    event "content_builder" [Some (lit "Done")] ].

(** An author without a progress message, with text on both sides of
    whitespace. *)
Definition root_turn : list Event :=
  [ event "researcher" [Some (lit " draft")];
    event "root_agent" [Some (lit " final "); None] ].

(** Two events that carry the texts "Hello, " and "world" among empty
    and absent ones. *)
Definition hello_turn : list Event :=
  [ event "root" [Some (lit "Hello, "); Some []];
    {| author := lit "root"; content := None |};
    event "root" [None; Some (lit "world")] ].

End Ref.

(** ** The agent card of the app server

    [build_dynamic_agent_card] and [lifespan] of [src/app/server.py]: the
    strings they hand to the card builder and to the route table.  The
    two path constants come from the A2A library. *)

Module AgentCard.

(** [os.getenv(key, default)]: the default stands in only for a
    variable that is not set. *)
Definition getenv (environ : gmap (list N) (list N)) (key default : str) : str :=
  match environ !! key with
  | Some v => v
  | None => default
  end.

(** What [AgentCardBuilder] is called with. *)
Record builder_args := {
  streaming : bool;
  rpc_url : str;
  agent_version : str
}.

(** What [add_routes_to_app] is called with. *)
Record routes := {
  agent_card_url : str;
  route_rpc_url : str;
  extended_agent_card_url : str
}.

Section Card.
Context (adk_app_name : str).
Context (AGENT_CARD_WELL_KNOWN_PATH EXTENDED_AGENT_CARD_PATH : str).

(** [A2A_RPC_PATH = f"/a2a/{adk_app.name}"]. *)
Definition A2A_RPC_PATH : str := lit "/a2a/" ++ adk_app_name.

Definition build_dynamic_agent_card (environ : gmap (list N) (list N))
  : builder_args :=
  {| streaming := true;
     rpc_url := getenv environ (lit "APP_URL") (lit "http://0.0.0.0:8000")
                ++ A2A_RPC_PATH;
     agent_version := getenv environ (lit "AGENT_VERSION") (lit "0.1.0") |}.

Definition lifespan : routes :=
  {| agent_card_url := A2A_RPC_PATH ++ AGENT_CARD_WELL_KNOWN_PATH;
     route_rpc_url := A2A_RPC_PATH;
     extended_agent_card_url := A2A_RPC_PATH ++ EXTENDED_AGENT_CARD_PATH |}.

End Card.
End AgentCard.

(** ** The other servers answering several requests *)

Section ServingOthers.
Context {St : Type} `{!Services St}.

Fixpoint serve_all_app (requests : list SimpleChatRequest) (w : world St)
  : world St :=
  match requests with
  | [] => w
  | request :: rest => serve_all_app rest (snd (App.chat request w))
  end.

Fixpoint serve_all_stream (requests : list SimpleChatRequest) (w : world St)
  : world St :=
  match requests with
  | [] => w
  | request :: rest =>
      serve_all_stream rest (snd (Orchestrator.serve_chat_stream request w))
  end.

End ServingOthers.

(** ** Lines on the wire *)

(** A character that [json.dumps] may leave in its output: printable
    ASCII. *)
Definition printable (c : N) : bool := (32 <=? c) && (c <=? 126).

(** A character that the encoder copies as it is. *)
Definition plain (c : N) : bool :=
  printable c && negb (c =? 34) && negb (c =? 92).

(** One record of [application/x-ndjson]: printable ASCII closed by the
    only newline. *)
Definition is_ndjson_line (line : str) : bool :=
  match rev line with
  | c :: body => (c =? 10) && forallb printable body
  | [] => false
  end.

(** ** More reference worlds *)

Module Scenario.

(** A store without sessions whose runner plays [events] and then
    raises. *)
Definition failing (events : list Event) (e : exn) : world Ref.state :=
  World {| Ref.sessions := ∅; Ref.turn := (events, Some e) |} [].

Definition overloaded : exn := Exception (lit "model overloaded").

(** A store that already has a session for the default pair, under an
    [id] of its own. *)
Definition stored : Session :=
  {| id := lit "s-42"; session_app_name := lit "course_creation";
     session_user_id := lit "test_user" |}.

Definition with_session (events : list Event) : world Ref.state :=
  World {| Ref.sessions :=
             {[ (lit "course_creation", lit "test_user", lit "test_session")
                := stored ]};
           Ref.turn := (events, None) |} [].

(** An environment that sets [APP_URL] to the empty string. *)
Definition empty_app_url : gmap (list N) (list N) :=
  {[ lit "APP_URL" := [] ]}.

End Scenario.

(** ** The records of the stream, byte by byte

    What a client reads on [/api/chat_stream], written out without the
    generator: the JSON object of a record as [json.dumps] lays it out,
    and the three progress records with their texts as they are on the
    wire (the emoji escaped to ASCII). *)

Module Ndjson.

(** [{"type": "<ty>", "text": <encoded>}] and the newline; [encoded] is
    the text already encoded, quotes included. *)
Definition record (ty encoded : str) : str :=
  lit "{" ++ dquote ++ lit "type" ++ dquote ++ lit ": "
  ++ dquote ++ ty ++ dquote ++ lit ", "
  ++ dquote ++ lit "text" ++ dquote ++ lit ": " ++ encoded
  ++ lit "}" ++ newline.

(** The result record that carries the text [t]. *)
Definition result (t : str) : str :=
  record (lit "result") (Json.encode_str t).

(** The result record of a text that needs no escaping. *)
Definition result_plain (t : str) : str :=
  record (lit "result") (dquote ++ t ++ dquote).

Definition researcher : str :=
  record (lit "progress")
    (dquote ++ lit "\ud83d\udd0d Researcher is gathering information..."
     ++ dquote).

Definition judge : str :=
  record (lit "progress")
    (dquote ++ lit "\u2696\ufe0f Judge is evaluating findings..."
     ++ dquote).

Definition content_builder : str :=
  record (lit "progress")
    (dquote ++ lit "\u270d\ufe0f Content Builder is writing the course..."
     ++ dquote).

(** The static mapping from author to progress record; no record for
    any other author. *)
Definition progress_of (author : str) : list str :=
  if bool_decide (author = lit "researcher") then [researcher]
  else if bool_decide (author = lit "judge") then [judge]
  else if bool_decide (author = lit "content_builder") then [content_builder]
  else [].

(** The progress records of a turn, in the order of its events. *)
Definition progress_records (events : list Event) : list str :=
  flat_map (fun e => progress_of (author e)) events.

End Ndjson.

(** ** A session service that files sessions as the ADK in-memory
    service does

    [InMemorySessionService.create_session] files the new session under
    the stripped id, and under a generated id when the stripped id is
    empty:
<<
    session_id = (session_id.strip()
                  if session_id and session_id.strip()
                  else str(uuid.uuid4()))
>>
    [get_session] looks the id up as it is given.  The values that
    [uuid.uuid4()] will return are a tape in the state. *)

Module Adk.

Record state := {
  sessions : gmap (list N * list N * list N) Session;
  uuid4 : list str;
  turn : list Event * option exn
}.

Definition lookup_session (a u i : str) (st : state)
  : result (option Session) * state :=
  (Ok (sessions st !! (a, u, i)), st).

Definition file_session (a u i : str) (st : state)
  : result Session * state :=
  let '(i', tape) :=
    match strip i with
    | _ :: _ => (strip i, uuid4 st)
    | [] => (hd (lit "uuid") (uuid4 st), tl (uuid4 st))
    end in
  let s := {| id := i'; session_app_name := a; session_user_id := u |} in
  (Ok s, {| sessions := <[(a, u, i') := s]> (sessions st);
            uuid4 := tape; turn := turn st |}).

Definition replay (u i : str) (m : Content) (st : state)
  : (list Event * option exn) * state :=
  (turn st, st).

Definition services : Services state := {|
  adk_app_name := lit "course_creation";
  get_session := lookup_session;
  create_session := file_session;
  run_async := replay
|}.

(** No session yet, two ids on the tape, a runner that answers "ok". *)
Definition fresh : world state :=
  World {| sessions := ∅;
           uuid4 := [lit "uuid-1"; lit "uuid-2"];
           turn := ([Ref.event "root" [Some (lit "ok")]], None) |} [].



End Adk.

(** The same contract for one triple only: the service files a session
    created for [(a, u, i)] where a fetch of [(a, u, i)] finds it, and
    no call drops it.  A service may meet it for some triples and not
    for others. *)
Class FilesTriple (St : Type) `{!Services St} (a u i : str) := {
  filed : St -> Session -> Prop;
  create_files st s st' :
    create_session a u i st = (Ok s, st') -> filed st' s;
  get_filed st s :
    filed st s ->
    exists s' st', get_session a u i st = (Ok (Some s'), st') /\ id s' = id s;
  get_keeps_filed st s a' u' i' :
    filed st s -> filed (snd (get_session a' u' i' st)) s;
  create_keeps_filed st s a' u' i' :
    filed st s -> (a', u', i') <> (a, u, i) ->
    filed (snd (create_session a' u' i' st)) s;
  run_keeps_filed st s u' i' m :
    filed st s -> filed (snd (run_async u' i' m st)) s
}.


(** [part.text + "\n"]. *)
Definition with_newline (t : str) : str := t ++ newline.

(** * Properties *)

(** Reassociate appends to the right, then compare. *)
Ltac list_assoc :=
  repeat first [rewrite <- app_assoc | rewrite <- app_comm_cons];
  reflexivity.

(** ** Stripping *)

Section Strip.

Lemma lstrip_all_space (s : str) :
  forallb isspace s = true -> lstrip s = [].
Proof.
  induction s as [|c s IH]; simpl; [reflexivity|].
  destruct (isspace c); simpl; [exact IH | discriminate].
Qed.

Lemma lstrip_app (s t : str) :
  lstrip (s ++ t) =
  if forallb isspace s then lstrip t else lstrip s ++ t.
Proof.
  induction s as [|c s IH]; simpl; [reflexivity|].
  destruct (isspace c); simpl; [exact IH | reflexivity].
Qed.

(** Whitespace appended at the end does not survive [strip]. *)
Lemma strip_app_space (s : str) (c : N) :
  isspace c = true -> strip (s ++ [c]) = strip s.
Proof.
  intros Hc. unfold strip, rstrip.
  rewrite lstrip_app.
  destruct (forallb isspace s) eqn:Hs.
  - rewrite (lstrip_all_space s Hs). simpl. rewrite Hc. reflexivity.
  - rewrite rev_app_distr. simpl. rewrite Hc. reflexivity.
Qed.

Lemma strip_app_newline (s : str) : strip (s ++ newline) = strip s.
Proof. apply strip_app_space. reflexivity. Qed.

End Strip.

(** ** The loops of the three servers as folds over the fragments *)

Section Folds.

Lemma app_for_parts (ps : list Part) (final_text : str) :
  App.for_parts final_text ps =
  final_text ++ concat (map with_newline (Spec.texts ps)).
Proof.
  revert final_text.
  induction ps as [|p ps IH]; intros final_text; simpl.
  - symmetry. apply app_nil_r.
  - rewrite IH. destruct (text p) as [[|c t]|]; simpl; try reflexivity.
    unfold with_newline. list_assoc.
Qed.

Lemma app_on_event (event : Event) (final_text : str) :
  App.on_event final_text event =
  final_text ++ concat (map with_newline (Spec.fromEvent event)).
Proof.
  unfold App.on_event, Spec.fromEvent.
  destruct (content event) as [c|]; simpl; [|symmetry; apply app_nil_r].
  destruct (parts c) as [[|p ps]|]; simpl;
    try (symmetry; apply app_nil_r).
  apply (app_for_parts (p :: ps)).
Qed.

Lemma app_for_events (events : list Event) (final_text : str) :
  App.for_events final_text events =
  final_text ++ concat (map with_newline (Spec.fragments events)).
Proof.
  revert final_text.
  induction events as [|e events IH]; intros final_text; simpl.
  - symmetry. apply app_nil_r.
  - rewrite IH, app_on_event. unfold Spec.fragments. simpl.
    rewrite map_app, concat_app, <- app_assoc. reflexivity.
Qed.

Lemma judge_for_parts (ps : list Part) (final_text : str) :
  Judge.for_parts final_text ps = App.for_parts final_text ps.
Proof.
  revert final_text. induction ps as [|p ps IH]; intros; simpl;
    [reflexivity | apply IH].
Qed.

Lemma judge_on_event (event : Event) (final_text : str) :
  Judge.on_event final_text event = App.on_event final_text event.
Proof.
  unfold Judge.on_event, App.on_event.
  destruct (content event) as [c|]; [|reflexivity].
  destruct (truthy (parts c)); [apply judge_for_parts | reflexivity].
Qed.

Lemma judge_for_events (events : list Event) (final_text : str) :
  Judge.for_events final_text events = App.for_events final_text events.
Proof.
  revert final_text. induction events as [|e events IH]; intros; simpl;
    [reflexivity | rewrite judge_on_event; apply IH].
Qed.

Lemma orch_for_parts (ps : list Part) (final_text : str) :
  Orchestrator.for_parts final_text ps =
  final_text ++ concat (Spec.texts ps).
Proof.
  revert final_text.
  induction ps as [|p ps IH]; intros final_text; simpl.
  - symmetry. apply app_nil_r.
  - rewrite IH. destruct (text p) as [[|c t]|]; simpl; try reflexivity.
    list_assoc.
Qed.

Lemma orch_accumulate (event : Event) (final_text : str) :
  Orchestrator.accumulate final_text event =
  final_text ++ concat (Spec.fromEvent event).
Proof.
  unfold Orchestrator.accumulate, Spec.fromEvent.
  destruct (content event) as [c|]; simpl; [|symmetry; apply app_nil_r].
  destruct (parts c) as [[|p ps]|]; simpl;
    try (symmetry; apply app_nil_r).
  apply (orch_for_parts (p :: ps)).
Qed.

(** Every fragment followed by a newline is the newline-joined text
    followed by one more newline. *)
Lemma concat_with_newline (xs : list str) :
  xs <> [] -> concat (map with_newline xs) = join newline xs ++ newline.
Proof.
  induction xs as [|x xs IH]; [congruence|]. intros _.
  destruct xs as [|y xs].
  - simpl. unfold with_newline. rewrite app_nil_r. reflexivity.
  - change (concat (map with_newline (x :: y :: xs)))
      with (with_newline x ++ concat (map with_newline (y :: xs))).
    rewrite IH by congruence.
    change (join newline (x :: y :: xs))
      with (x ++ newline ++ join newline (y :: xs)).
    unfold with_newline. rewrite <- !app_assoc. reflexivity.
Qed.

(** The buffered loop, stripped, is the buffered policy. *)
Lemma buffered_refines (events : list Event) :
  strip (App.for_events [] events) = Spec.buffered events.
Proof.
  rewrite app_for_events. simpl. unfold Spec.buffered.
  destruct (Spec.fragments events) as [|x xs] eqn:E; [reflexivity|].
  rewrite concat_with_newline by congruence.
  apply strip_app_newline.
Qed.

End Folds.

(** ** The lines of the stream *)

Section Lines.

Lemma starts_with_app (p s : str) : starts_with p (p ++ s) = true.
Proof.
  induction p as [|a p IH]; simpl; [reflexivity|].
  rewrite N.eqb_refl. exact IH.
Qed.

Lemma record_line_prefix (ty t : str) :
  Orchestrator.record_line ty t =
  type_prefix ty
  ++ (Json.encode_str (lit "text") ++ lit ": " ++ Json.encode_str t
      ++ lit "}" ++ newline).
Proof.
  unfold Orchestrator.record_line, Json.dumps, type_prefix.
  cbn [map join Json.encode_item fst snd]. list_assoc.
Qed.

Lemma has_type_record_line (ty t : str) :
  has_type ty (Orchestrator.record_line ty t) = true.
Proof.
  unfold has_type. rewrite record_line_prefix. apply starts_with_app.
Qed.

Lemma result_line_is_result (t : str) :
  is_result (Orchestrator.result_line t) = true.
Proof. apply has_type_record_line. Qed.

Lemma progress_line_is_progress (t : str) :
  is_progress (Orchestrator.progress_line t) = true.
Proof. apply has_type_record_line. Qed.

Lemma progress_line_not_result (t : str) :
  is_result (Orchestrator.progress_line t) = false.
Proof.
  unfold is_result, has_type, Orchestrator.progress_line.
  rewrite record_line_prefix. reflexivity.
Qed.

Lemma result_line_not_progress (t : str) :
  is_progress (Orchestrator.result_line t) = false.
Proof.
  unfold is_progress, has_type, Orchestrator.result_line.
  rewrite record_line_prefix. reflexivity.
Qed.

(** The three branches of the chain and its fall-through. *)
Lemma progress_cases (event : Event) :
  (author event = lit "researcher"
   /\ Orchestrator.progress event
      = [Orchestrator.progress_line Orchestrator.researcher_msg])
  \/ (author event = lit "judge"
      /\ Orchestrator.progress event
         = [Orchestrator.progress_line Orchestrator.judge_msg])
  \/ (author event = lit "content_builder"
      /\ Orchestrator.progress event
         = [Orchestrator.progress_line Orchestrator.content_builder_msg])
  \/ (Spec.known_author (author event) = false
      /\ Orchestrator.progress event = []).
Proof.
  unfold Orchestrator.progress, Spec.known_author.
  repeat case_bool_decide; auto.
Qed.

Lemma progress_all_progress (event : Event) :
  Forall (fun l => is_progress l = true /\ is_result l = false)
         (Orchestrator.progress event).
Proof.
  destruct (progress_cases event) as [[_ ->]|[[_ ->]|[[_ ->]|[_ ->]]]];
    repeat constructor;
    auto using progress_line_is_progress, progress_line_not_result.
Qed.

Lemma progress_length (event : Event) :
  (length (Orchestrator.progress event) <= 1)%nat.
Proof.
  destruct (progress_cases event) as [[_ ->]|[[_ ->]|[[_ ->]|[_ ->]]]];
    simpl; lia.
Qed.

(** The generator: the progress lines of the events in their order,
    then the result line unless the runner raised. *)
Lemma orch_for_events (events : list Event) (final_text : str)
      (err : option exn) :
  Orchestrator.for_events final_text events err =
  (flat_map Orchestrator.progress events
   ++ match err with
      | None =>
          [Orchestrator.result_line
             (strip (final_text ++ concat (Spec.fragments events)))]
      | Some _ => []
      end,
   err).
Proof.
  revert final_text.
  induction events as [|e events IH]; intros final_text; simpl.
  - rewrite app_nil_r. destruct err; reflexivity.
  - rewrite IH, orch_accumulate. unfold Spec.fragments. simpl.
    rewrite concat_app, <- !app_assoc. reflexivity.
Qed.

Lemma flat_map_progress_no_result (events : list Event) :
  filter (fun l => is_result l = true)
         (flat_map Orchestrator.progress events) = [].
Proof.
  induction events as [|e events IH]; simpl; [reflexivity|].
  rewrite filter_app, IH, app_nil_r.
  pose proof (progress_all_progress e) as H.
  induction H as [|l ls [_ Hl] _ IHl]; [reflexivity|].
  rewrite filter_cons_False by (rewrite Hl; discriminate). exact IHl.
Qed.

End Lines.

(** ** Resolving the session *)

Section Sessions.
Context {St : Type} `{!Services St}.

Lemma ensure_session_hit (request : SimpleChatRequest) (w : world St)
      (s : Session) (s1 : St) :
  get_session adk_app_name (user_id request) (session_id request) (ext w)
    = (Ok (Some s), s1) ->
  ensure_session request w =
  (Ok s,
   World s1 (trace w ++ [CallGetSession adk_app_name (user_id request)
                                        (session_id request)])).
Proof.
  intros Hget.
  unfold ensure_session, bind, try_except, await_get_session, perform, ret.
  rewrite Hget. reflexivity.
Qed.

Lemma ensure_session_miss (request : SimpleChatRequest) (w : world St)
      (r : result (option Session)) (s1 : St)
      (cr : result Session) (s2 : St) :
  get_session adk_app_name (user_id request) (session_id request) (ext w)
    = (r, s1) ->
  (r = Ok None \/ exists e, r = Raise e) ->
  create_session adk_app_name (user_id request) (session_id request) s1
    = (cr, s2) ->
  ensure_session request w =
  (cr,
   World s2 (trace w
             ++ [CallGetSession adk_app_name (user_id request)
                                (session_id request);
                 CallCreateSession adk_app_name (user_id request)
                                   (session_id request)])).
Proof.
  intros Hget Hr Hcreate.
  unfold ensure_session, bind, try_except, await_get_session,
    await_create_session, perform, ret.
  rewrite Hget.
  destruct Hr as [-> | [e ->]]; simpl; rewrite Hcreate;
    rewrite <- app_assoc; reflexivity.
Qed.

End Sessions.

(** ** The buffered endpoint *)

Section Buffered.
Context {St : Type} `{!Services St}.

Lemma app_chat_completes (request : SimpleChatRequest) (w : world St)
      (session : Session) (w1 : world St) (events : list Event)
      (w2 : world St) :
  ensure_session request w = (Ok session, w1) ->
  iterate_run_async (user_id request) (id session) (user_message request) w1
    = ((events, None), w2) ->
  App.chat request w = (Ok [(lit "response", Spec.buffered events)], w2).
Proof.
  intros Hs Hrun. unfold App.chat, bind.
  rewrite Hs, Hrun, buffered_refines. reflexivity.
Qed.

Lemma judge_chat_completes (request : SimpleChatRequest) (w : world St)
      (session : Session) (w1 : world St) (events : list Event)
      (w2 : world St) :
  ensure_session request w = (Ok session, w1) ->
  iterate_run_async (user_id request) (id session) (user_message request) w1
    = ((events, None), w2) ->
  Judge.chat request w = (Ok [(lit "response", Spec.buffered events)], w2).
Proof.
  intros Hs Hrun. unfold Judge.chat, bind.
  rewrite Hs, Hrun, judge_for_events, buffered_refines. reflexivity.
Qed.

End Buffered.

(** C1.  On [/api/chat] (app and judge servers) a request whose session
    is resolved and whose turn completes answers [{"response": t}] where
    [t] is every non-empty text part of the turn, in event order and
    part order, joined by a newline and then stripped at both ends.  For
    a turn whose text parts are "Hello, " and "world" the body is
    [{"response": "Hello, \nworld"}]. *)
Theorem buffered_chat_response {St : Type} `{!Services St}
        (request : SimpleChatRequest) (w : world St)
        (session : Session) (w1 : world St) (events : list Event)
        (w2 : world St) :
  ensure_session request w = (Ok session, w1) ->
  iterate_run_async (user_id request) (id session) (user_message request) w1
    = ((events, None), w2) ->
  App.chat request w
    = (Ok [(lit "response", strip (join newline (Spec.fragments events)))], w2)
  /\ Judge.chat request w
     = (Ok [(lit "response", strip (join newline (Spec.fragments events)))], w2)
  /\ (Spec.fragments events = [lit "Hello, "; lit "world"] ->
      App.chat request w
        = (Ok [(lit "response", lit "Hello, " ++ newline ++ lit "world")], w2)
      /\ Judge.chat request w
         = (Ok [(lit "response", lit "Hello, " ++ newline ++ lit "world")], w2)).
Proof.
  intros Hs Hrun.
  pose proof (app_chat_completes request w session w1 events w2 Hs Hrun) as Ha.
  pose proof (judge_chat_completes request w session w1 events w2 Hs Hrun) as Hj.
  unfold Spec.buffered in Ha, Hj.
  split; [exact Ha|]. split; [exact Hj|].
  intros Hf. rewrite Ha, Hj, Hf. split; reflexivity.
Qed.

Lemma buffered_chat_response_witness :
  Spec.fragments Ref.hello_turn = [lit "Hello, "; lit "world"]
  /\ fst (App.chat (Services0 := Ref.services) Ref.request
                  (Ref.fresh Ref.hello_turn))
     = Ok [(lit "response", lit "Hello, " ++ newline ++ lit "world")]
  /\ fst (Judge.chat (Services0 := Ref.services) Ref.request
                    (Ref.fresh Ref.hello_turn))
     = Ok [(lit "response", lit "Hello, " ++ newline ++ lit "world")].
Proof.
  split; [reflexivity|].
  edestruct (buffered_chat_response (Services0 := Ref.services) Ref.request
               (Ref.fresh Ref.hello_turn)) as (_ & _ & H).
  - reflexivity.
  - reflexivity.
  - exact (conj (f_equal fst (proj1 (H eq_refl)))
                (f_equal fst (proj2 (H eq_refl)))).
Defined.

(** ** The streaming endpoint *)

Section Streaming.
Context {St : Type} `{!Services St}.

Lemma event_generator_lines (request : SimpleChatRequest)
      (session : Session) (user_msg : Content) (w : world St)
      (events : list Event) (err : option exn) (w' : world St) :
  iterate_run_async (user_id request) (id session) user_msg w
    = ((events, err), w') ->
  Orchestrator.event_generator request session user_msg w =
  ((flat_map Orchestrator.progress events
    ++ match err with
       | None => [Orchestrator.result_line (Spec.streamed events)]
       | Some _ => []
       end,
    err), w').
Proof.
  intros Hrun. unfold Orchestrator.event_generator.
  rewrite Hrun, orch_for_events. reflexivity.
Qed.

Lemma serve_chat_stream_completes (request : SimpleChatRequest)
      (w : world St) (session : Session) (w1 : world St)
      (events : list Event) (err : option exn) (w2 : world St) :
  ensure_session request w = (Ok session, w1) ->
  iterate_run_async (user_id request) (id session) (user_message request) w1
    = ((events, err), w2) ->
  Orchestrator.serve_chat_stream request w =
  (Ok (flat_map Orchestrator.progress events
       ++ match err with
          | None => [Orchestrator.result_line (Spec.streamed events)]
          | Some _ => []
          end,
       err), w2).
Proof.
  intros Hs Hrun.
  unfold Orchestrator.serve_chat_stream, Orchestrator.chat_stream, bind, ret.
  rewrite Hs. cbn [Orchestrator.body_iterator].
  rewrite (event_generator_lines _ _ _ _ _ _ _ Hrun). reflexivity.
Qed.

End Streaming.

(** ** The generator's lines are the records byte by byte *)

Section Records.

Lemma escape_char_plain (c : N) :
  plain c = true -> Json.escape_char c = [c].
Proof.
  unfold plain, printable. intros H.
  apply andb_prop in H as [H H92]. apply andb_prop in H as [H H34].
  apply negb_true_iff in H92, H34.
  pose proof H as Hp. apply andb_prop in Hp as [Hlo Hhi].
  apply N.leb_le in Hlo.
  unfold Json.escape_char. rewrite H92, H34.
  repeat match goal with
         | |- context [?c =? ?k] =>
             destruct (N.eqb_spec c k) as [->|_]; [lia|]
         end.
  rewrite H. reflexivity.
Qed.

Lemma encode_str_plain (t : str) :
  forallb plain t = true -> Json.encode_str t = dquote ++ t ++ dquote.
Proof.
  intros H. unfold Json.encode_str.
  assert (E : flat_map Json.escape_char t = t).
  { induction t as [|c t IH]; [reflexivity|].
    cbn [forallb] in H. apply andb_prop in H as [Hc Ht].
    cbn [flat_map]. rewrite (escape_char_plain c Hc), (IH Ht). reflexivity. }
  rewrite E. reflexivity.
Qed.

Lemma result_plain_wire (t : str) :
  forallb plain t = true -> Ndjson.result t = Ndjson.result_plain t.
Proof.
  intros H. unfold Ndjson.result, Ndjson.result_plain.
  rewrite (encode_str_plain t H). reflexivity.
Qed.

Lemma result_line_wire (t : str) :
  Orchestrator.result_line t = Ndjson.result t.
Proof.
  unfold Orchestrator.result_line, Orchestrator.record_line, Json.dumps,
    Ndjson.result, Ndjson.record.
  cbn [map join]. unfold Json.encode_item. cbn [fst snd].
  change (Json.encode_str (lit "type")) with (dquote ++ lit "type" ++ dquote).
  change (Json.encode_str (lit "result"))
    with (dquote ++ lit "result" ++ dquote).
  change (Json.encode_str (lit "text")) with (dquote ++ lit "text" ++ dquote).
  list_assoc.
Qed.

Lemma progress_wire (event : Event) :
  Orchestrator.progress event = Ndjson.progress_of (author event).
Proof.
  unfold Orchestrator.progress, Ndjson.progress_of.
  repeat case_bool_decide; reflexivity.
Qed.

Lemma progress_records_wire (events : list Event) :
  flat_map Orchestrator.progress events = Ndjson.progress_records events.
Proof.
  unfold Ndjson.progress_records.
  induction events as [|e events IH]; [reflexivity|].
  cbn [flat_map]. rewrite IH, progress_wire. reflexivity.
Qed.

Lemma wire_result_is_result (t : str) : is_result (Ndjson.result t) = true.
Proof. rewrite <- result_line_wire. apply result_line_is_result. Qed.

Lemma progress_records_no_result (events : list Event) :
  Forall (fun l => is_result l = false) (Ndjson.progress_records events).
Proof.
  rewrite <- progress_records_wire.
  apply Forall_flat_map, Forall_forall. intros e _.
  eapply Forall_impl; [apply progress_all_progress|].
  intros l [_ Hl]. exact Hl.
Qed.

End Records.

(** C2.  On [/api/chat_stream], when the session is resolved and the
    turn completes normally, the stream is the progress records of the
    events followed by one result record; that record is the last line
    and the only result record, no line before it is one, and it is the
    JSON object of type "result" whose text is every non-empty text
    part of the turn concatenated without separator and stripped at both
    ends (for a text that needs no escaping, the text itself between
    the quotes). *)
Theorem stream_single_result {St : Type} `{!Services St}
        (request : SimpleChatRequest) (w : world St)
        (session : Session) (w1 : world St) (events : list Event)
        (w2 : world St) :
  ensure_session request w = (Ok session, w1) ->
  iterate_run_async (user_id request) (id session) (user_message request) w1
    = ((events, None), w2) ->
  let text := strip (concat (Spec.fragments events)) in
  let before := Ndjson.progress_records events in
  let final := Ndjson.result text in
  Orchestrator.serve_chat_stream request w = (Ok (before ++ [final], None), w2)
  /\ Forall (fun l => is_result l = false) before
  /\ is_result final = true
  /\ last (before ++ [final]) = Some final
  /\ length (filter (fun l => is_result l = true) (before ++ [final])) = 1%nat
  /\ (forallb plain text = true -> final = Ndjson.result_plain text).
Proof.
  intros Hs Hrun. cbv zeta.
  split.
  { rewrite (serve_chat_stream_completes _ _ _ _ _ _ _ Hs Hrun).
    rewrite progress_records_wire, result_line_wire. reflexivity. }
  split; [apply progress_records_no_result|].
  split; [apply wire_result_is_result|].
  split; [apply last_snoc|].
  split; [|apply result_plain_wire].
  rewrite filter_app, <- progress_records_wire, flat_map_progress_no_result.
  rewrite filter_cons_True by apply wire_result_is_result.
  reflexivity.
Qed.

Lemma stream_single_result_witness :
  fst (Orchestrator.serve_chat_stream (Services0 := Ref.services)
         Ref.request (Ref.fresh Ref.root_turn))
  = Ok ([Ndjson.researcher; Ndjson.result_plain (lit "draft final")], None)
  /\ length (filter (fun l => is_result l = true)
                    [Ndjson.researcher; Ndjson.result_plain (lit "draft final")])
     = 1%nat.
Proof.
  edestruct (stream_single_result (Services0 := Ref.services) Ref.request
               (Ref.fresh Ref.root_turn)) as (H & _ & _ & _ & Hn & Hp).
  - reflexivity.
  - reflexivity.
  - split.
    + rewrite (Hp eq_refl) in H. exact (f_equal fst H).
    + rewrite (Hp eq_refl) in Hn. exact Hn.
Defined.

(** C3.  Whatever the runner produces, the generator yields the progress
    records of the events in the order of the events and, when the turn
    completes, the result record after all of them.  For a researcher
    event, a judge event and a content-builder event of which only the
    last carries text, "Done", the lines are the three progress records
    in that order, each with the message of its agent, and then the
    result record with "Done"; the same four lines come out when the
    three agents carry no text and a last event of another author
    carries "Done". *)
Theorem stream_order {St : Type} `{!Services St}
        (request : SimpleChatRequest) (session : Session)
        (user_msg : Content) (w : world St)
        (events : list Event) (err : option exn) (w' : world St) :
  iterate_run_async (user_id request) (id session) user_msg w
    = ((events, err), w') ->
  let lines := fst (fst (Orchestrator.event_generator request session user_msg w)) in
  let pipeline :=
    [ Ndjson.researcher; Ndjson.judge; Ndjson.content_builder;
      Ndjson.result_plain (lit "Done") ] in
  lines
    = Ndjson.progress_records events
      ++ match err with
         | None => [Ndjson.result (strip (concat (Spec.fragments events)))]
         | Some _ => []
         end
  /\ (forall evs1 e evs2,
        events = evs1 ++ e :: evs2 ->
        exists tail,
          lines = Ndjson.progress_records evs1
                  ++ Ndjson.progress_of (author e)
                  ++ Ndjson.progress_records evs2 ++ tail
          /\ Forall (fun l => is_result l = true) tail)
  /\ (forall e1 e2 e3,
        err = None -> events = [e1; e2; e3] ->
        author e1 = lit "researcher" -> author e2 = lit "judge" ->
        author e3 = lit "content_builder" ->
        Spec.fromEvent e1 = [] -> Spec.fromEvent e2 = [] ->
        Spec.fromEvent e3 = [lit "Done"] ->
        lines = pipeline)
  /\ (forall e1 e2 e3 e4,
        err = None -> events = [e1; e2; e3; e4] ->
        author e1 = lit "researcher" -> author e2 = lit "judge" ->
        author e3 = lit "content_builder" ->
        Spec.known_author (author e4) = false ->
        Spec.fromEvent e1 = [] -> Spec.fromEvent e2 = [] ->
        Spec.fromEvent e3 = [] -> Spec.fromEvent e4 = [lit "Done"] ->
        lines = pipeline).
Proof.
  intros Hrun. cbv zeta.
  rewrite (event_generator_lines _ _ _ _ _ _ _ Hrun). cbn [fst].
  unfold Spec.streamed. rewrite progress_records_wire, result_line_wire.
  split; [reflexivity|]. split; [|split].
  - intros evs1 e evs2 ->.
    exists (match err with
            | None => [Ndjson.result
                         (strip (concat (Spec.fragments (evs1 ++ e :: evs2))))]
            | Some _ => []
            end).
    split.
    + unfold Ndjson.progress_records. rewrite flat_map_app.
      cbn [flat_map]. list_assoc.
    + destruct err; constructor; [apply wire_result_is_result | constructor].
  - intros e1 e2 e3 -> -> H1 H2 H3 F1 F2 F3.
    unfold Spec.fragments, Ndjson.progress_records. cbn [flat_map].
    rewrite H1, H2, H3, F1, F2, F3.
    reflexivity.
  - intros e1 e2 e3 e4 -> -> H1 H2 H3 H4 F1 F2 F3 F4.
    unfold Spec.fragments, Ndjson.progress_records. cbn [flat_map].
    assert (P4 : Ndjson.progress_of (author e4) = []).
    { rewrite <- progress_wire.
      destruct (progress_cases e4) as [[A _]|[[A _]|[[A _]|[_ P4]]]];
        try (rewrite A in H4; discriminate).
      exact P4. }
    rewrite P4, H1, H2, H3, F1, F2, F3, F4.
    reflexivity.
Qed.

Lemma stream_order_witness :
  fst (fst (Orchestrator.event_generator (Services0 := Ref.services)
              Ref.request
              {| id := lit "test_session";
                 session_app_name := lit "course_creation";
                 session_user_id := lit "test_user" |}
              (user_message Ref.request)
              (Ref.fresh Ref.pipeline_turn)))
  = [ Ndjson.researcher; Ndjson.judge; Ndjson.content_builder;
      Ndjson.result_plain (lit "Done") ].
Proof.
  edestruct (stream_order (Services0 := Ref.services) Ref.request
               {| id := lit "test_session";
                  session_app_name := lit "course_creation";
                  session_user_id := lit "test_user" |}
               (user_message Ref.request)
               (Ref.fresh Ref.pipeline_turn)) as (_ & _ & H & _).
  - reflexivity.
  - exact (H _ _ _ eq_refl eq_refl eq_refl eq_refl eq_refl
             eq_refl eq_refl eq_refl).
Defined.

(** ** Failure of the session fetch *)

(** C4.  When the fetch of the session raises or returns no session, the
    handlers go on to [create_session] with the same application name,
    user id and session id; what the fetch raised is dropped.  The
    request fails at this point exactly when the creation raises, and
    with the exception of the creation; when the creation succeeds the
    handlers run the turn on the created session. *)
Theorem fetch_failure_creates {St : Type} `{!Services St}
        (request : SimpleChatRequest) (w : world St)
        (r : result (option Session)) (s1 : St)
        (cr : result Session) (s2 : St) :
  get_session adk_app_name (user_id request) (session_id request) (ext w)
    = (r, s1) ->
  (r = Ok None \/ exists e, r = Raise e) ->
  create_session adk_app_name (user_id request) (session_id request) s1
    = (cr, s2) ->
  let w2 :=
    World s2 (trace w
              ++ [CallGetSession adk_app_name (user_id request)
                                 (session_id request);
                  CallCreateSession adk_app_name (user_id request)
                                    (session_id request)]) in
  ensure_session request w = (cr, w2)
  /\ (forall e, cr = Raise e ->
        App.chat request w = (Raise e, w2)
        /\ Judge.chat request w = (Raise e, w2)
        /\ Orchestrator.serve_chat_stream request w = (Raise e, w2))
  /\ (forall session events w3,
        cr = Ok session ->
        iterate_run_async (user_id request) (id session)
                          (user_message request) w2
          = ((events, None), w3) ->
        App.chat request w
          = (Ok [(lit "response", Spec.buffered events)], w3)
        /\ Judge.chat request w
           = (Ok [(lit "response", Spec.buffered events)], w3)
        /\ Orchestrator.serve_chat_stream request w
           = (Ok (flat_map Orchestrator.progress events
                  ++ [Orchestrator.result_line (Spec.streamed events)],
                  None), w3)).
Proof.
  intros Hget Hr Hcreate. cbv zeta.
  pose proof (ensure_session_miss request w r s1 cr s2 Hget Hr Hcreate) as Hs.
  split; [exact Hs|]. split.
  - intros e ->.
    unfold App.chat, Judge.chat, Orchestrator.serve_chat_stream,
      Orchestrator.chat_stream, bind.
    rewrite Hs. auto.
  - intros session events w3 -> Hrun.
    split; [exact (app_chat_completes _ _ _ _ _ _ Hs Hrun)|].
    split; [exact (judge_chat_completes _ _ _ _ _ _ Hs Hrun)|].
    exact (serve_chat_stream_completes _ _ _ _ _ _ _ Hs Hrun).
Qed.

Lemma fetch_failure_creates_witness :
  fst (get_session (Services := Ref.flaky) (lit "course_creation")
         (lit "test_user") (lit "test_session")
         (ext (Ref.fresh Ref.hello_turn)))
  = Raise (Exception (lit "unavailable"))
  /\ fst (App.chat (Services0 := Ref.flaky) Ref.request
            (Ref.fresh Ref.hello_turn))
     = Ok [(lit "response", lit "Hello, " ++ newline ++ lit "world")].
Proof.
  split; [reflexivity|].
  edestruct (fetch_failure_creates (Services0 := Ref.flaky) Ref.request
               (Ref.fresh Ref.hello_turn)) as (_ & _ & H).
  - reflexivity.
  - right. eexists. reflexivity.
  - reflexivity.
  - edestruct H as (Ha & _ & _); [reflexivity | reflexivity |].
    exact (f_equal fst Ha).
Defined.

(** ** One session per pair *)

Section Reuse.
Context {St : Type} `{!Services St} `{!KeepsSessions St}.

Lemma creations_app (a u i : str) (t1 t2 : list call) :
  creations a u i (t1 ++ t2) = (creations a u i t1 + creations a u i t2)%nat.
Proof. unfold creations. rewrite filter_app. apply length_app. Qed.

Lemma creations_cons (a u i : str) (c : call) (t : list call) :
  creations a u i (c :: t) =
  ((if is_creation a u i c then 1 else 0) + creations a u i t)%nat.
Proof.
  unfold creations. destruct (is_creation a u i c) eqn:E.
  - rewrite filter_cons_True by exact E. reflexivity.
  - rewrite filter_cons_False by (rewrite E; discriminate). reflexivity.
Qed.

Lemma creations_nil (a u i : str) : creations a u i [] = 0%nat.
Proof. reflexivity. Qed.

Lemma is_creation_same (a u i : str) :
  is_creation a u i (CallCreateSession a u i) = true.
Proof.
  unfold is_creation. rewrite !bool_decide_eq_true_2 by reflexivity.
  reflexivity.
Qed.

Lemma is_creation_other (a u i a' u' i' : str) :
  (a', u', i') <> (a, u, i) ->
  is_creation a u i (CallCreateSession a' u' i') = false.
Proof.
  intros Hne. unfold is_creation.
  repeat case_bool_decide; try reflexivity. subst. congruence.
Qed.

(** The world a chat leaves behind, by the three ways it can go. *)
Lemma judge_chat_world (request : SimpleChatRequest) (w : world St) :
  let a := adk_app_name in
  let u := user_id request in
  let i := session_id request in
  let '(r, s1) := get_session a u i (ext w) in
  match r with
  | Ok (Some s) =>
      snd (Judge.chat request w) =
      World (snd (run_async u (id s) (user_message request) s1))
            (trace w ++ [CallGetSession a u i;
                         CallRunAsync u (id s) (user_message request)])
  | _ =>
      let '(cr, s2) := create_session a u i s1 in
      match cr with
      | Ok s =>
          snd (Judge.chat request w) =
          World (snd (run_async u (id s) (user_message request) s2))
                (trace w ++ [CallGetSession a u i; CallCreateSession a u i;
                             CallRunAsync u (id s) (user_message request)])
      | Raise _ =>
          snd (Judge.chat request w) =
          World s2 (trace w ++ [CallGetSession a u i;
                                CallCreateSession a u i])
      end
  end.
Proof.
  cbv zeta.
  destruct (get_session adk_app_name (user_id request) (session_id request)
                        (ext w)) as [r s1] eqn:Hget.
  assert (Hrun : forall s (w1 : world St),
             snd (let '(events, err, w') :=
                    iterate_run_async (user_id request) (id s)
                                      (user_message request) w1 in
                  match err with
                  | Some e => (Raise e, w')
                  | None =>
                      (Ok [(lit "response",
                            strip (Judge.for_events [] events))], w')
                  end)
             = World (snd (run_async (user_id request) (id s)
                                     (user_message request) (ext w1)))
                     (trace w1 ++ [CallRunAsync (user_id request) (id s)
                                                (user_message request)])).
  { intros s w1. unfold iterate_run_async.
    destruct (run_async _ _ _ _) as [[events [e|]] s3]; reflexivity. }
  destruct r as [[s|]|e].
  - unfold Judge.chat, bind.
    rewrite (ensure_session_hit request w s s1 Hget), Hrun.
    cbn [ext trace]. rewrite <- app_assoc. reflexivity.
  - destruct (create_session _ _ _ s1) as [cr s2] eqn:Hcreate.
    unfold Judge.chat, bind.
    rewrite (ensure_session_miss request w _ s1 cr s2 Hget
               (or_introl eq_refl) Hcreate).
    destruct cr as [s|e]; [|reflexivity].
    rewrite Hrun. cbn [ext trace]. rewrite <- app_assoc. reflexivity.
  - destruct (create_session _ _ _ s1) as [cr s2] eqn:Hcreate.
    unfold Judge.chat, bind.
    rewrite (ensure_session_miss request w _ s1 cr s2 Hget
               (or_intror (ex_intro _ e eq_refl)) Hcreate).
    destruct cr as [s|e']; [|reflexivity].
    rewrite Hrun. cbn [ext trace]. rewrite <- app_assoc. reflexivity.
Qed.

(** The first request on a pair the store does not have. *)
Lemma judge_chat_first (request : SimpleChatRequest) (w : world St)
      (s1 : St) (s : Session) (s2 : St) :
  get_session adk_app_name (user_id request) (session_id request) (ext w)
    = (Ok None, s1) ->
  create_session adk_app_name (user_id request) (session_id request) s1
    = (Ok s, s2) ->
  let w1 := snd (Judge.chat request w) in
  trace w1 =
    trace w ++ [CallGetSession adk_app_name (user_id request)
                               (session_id request);
                CallCreateSession adk_app_name (user_id request)
                                  (session_id request);
                CallRunAsync (user_id request) (id s)
                             (user_message request)]
  /\ holds (ext w1) adk_app_name (user_id request) (session_id request) s.
Proof.
  intros Hget Hcreate. cbv zeta.
  pose proof (judge_chat_world request w) as Hw. cbv zeta in Hw.
  rewrite Hget, Hcreate in Hw. rewrite Hw. cbn [ext trace].
  split; [reflexivity|].
  apply run_keeps. eapply create_holds. exact Hcreate.
Qed.

(** A request on a held pair fetches and runs, and creates nothing. *)
Lemma judge_chat_again (request : SimpleChatRequest) (w : world St)
      (s : Session) :
  holds (ext w) adk_app_name (user_id request) (session_id request) s ->
  trace (snd (Judge.chat request w)) =
    trace w ++ [CallGetSession adk_app_name (user_id request)
                               (session_id request);
                CallRunAsync (user_id request) (id s)
                             (user_message request)].
Proof.
  intros Hh.
  destruct (get_returns _ _ _ _ _ Hh) as (s' & st' & Hget & Hid).
  pose proof (judge_chat_world request w) as Hw. cbv zeta in Hw.
  rewrite Hget in Hw. rewrite Hw, Hid. reflexivity.
Qed.

(** No request drops a held session or creates one for its triple. *)
Lemma judge_chat_keeps (request : SimpleChatRequest) (w : world St)
      (a u i : str) (s : Session) :
  a = adk_app_name ->
  holds (ext w) a u i s ->
  holds (ext (snd (Judge.chat request w))) a u i s
  /\ creations a u i (trace (snd (Judge.chat request w)))
     = creations a u i (trace w).
Proof.
  intros Ha Hh. subst a.
  pose proof (judge_chat_world request w) as Hw. cbv zeta in Hw.
  pose proof (get_keeps adk_app_name u i (ext w) s adk_app_name (user_id request)
                        (session_id request) Hh) as Hk.
  destruct (get_session adk_app_name (user_id request) (session_id request)
                        (ext w)) as [r s1] eqn:Hget.
  cbn [snd] in Hk.
  assert (Hmiss : (r = Ok None \/ exists e, r = Raise e) ->
                  (adk_app_name, user_id request, session_id request)
                  <> (adk_app_name, u, i)).
  { intros Hr Heq. injection Heq as Hu Hi. subst u i.
    destruct (get_returns _ _ _ _ _ Hh) as (s' & st' & Hget' & _).
    rewrite Hget in Hget'. injection Hget' as Hr' _. subst r.
    destruct Hr as [Hr | [e Hr]]; discriminate. }
  assert (Hcase :
            forall cr s2,
              create_session adk_app_name (user_id request)
                             (session_id request) s1 = (cr, s2) ->
              (r = Ok None \/ exists e, r = Raise e) ->
              match cr with
              | Ok s0 =>
                  snd (Judge.chat request w) =
                  World (snd (run_async (user_id request) (id s0)
                                        (user_message request) s2))
                        (trace w ++ [CallGetSession adk_app_name
                                       (user_id request) (session_id request);
                                     CallCreateSession adk_app_name
                                       (user_id request) (session_id request);
                                     CallRunAsync (user_id request) (id s0)
                                       (user_message request)])
              | Raise _ =>
                  snd (Judge.chat request w) =
                  World s2 (trace w ++ [CallGetSession adk_app_name
                                          (user_id request) (session_id request);
                                        CallCreateSession adk_app_name
                                          (user_id request) (session_id request)])
              end ->
              holds (ext (snd (Judge.chat request w))) adk_app_name u i s
              /\ creations adk_app_name u i
                           (trace (snd (Judge.chat request w)))
                 = creations adk_app_name u i (trace w)).
  { intros cr s2 Hcreate Hr Hcr.
    pose proof (create_keeps adk_app_name u i s1 s adk_app_name
                  (user_id request) (session_id request) Hk (Hmiss Hr))
      as Hk2.
    rewrite Hcreate in Hk2. cbn [snd] in Hk2.
    pose proof (is_creation_other adk_app_name u i _ _ _ (Hmiss Hr)) as Hno.
    destruct cr as [s0|e]; rewrite Hcr; cbn [ext trace];
      (split; [try apply run_keeps; exact Hk2|]);
      rewrite creations_app, !creations_cons, Hno, creations_nil;
      cbn [is_creation]; lia. }
  destruct r as [[s0|]|e].
  - rewrite Hw. cbn [ext trace]. split; [apply run_keeps; exact Hk|].
    rewrite creations_app, !creations_cons, creations_nil.
    cbn [is_creation]. lia.
  - destruct (create_session _ _ _ s1) as [cr s2] eqn:Hcreate.
    apply (Hcase cr s2 eq_refl); [left; reflexivity | exact Hw].
  - destruct (create_session _ _ _ s1) as [cr s2] eqn:Hcreate.
    apply (Hcase cr s2 eq_refl); [right; eexists; reflexivity | exact Hw].
Qed.

Lemma serve_all_keeps (requests : list SimpleChatRequest) (w : world St)
      (a u i : str) (s : Session) :
  a = adk_app_name ->
  holds (ext w) a u i s ->
  holds (ext (serve_all requests w)) a u i s
  /\ creations a u i (trace (serve_all requests w))
     = creations a u i (trace w).
Proof.
  intros Ha. revert w.
  induction requests as [|request rest IH]; intros w Hh; simpl.
  - split; [exact Hh | reflexivity].
  - destruct (judge_chat_keeps request w a u i s Ha Hh) as [Hh1 Hc1].
    destruct (IH _ Hh1) as [Hh2 Hc2].
    split; [exact Hh2 | congruence].
Qed.

End Reuse.

(** The reference store keeps its sessions. *)
Section RefStore.

Lemma ref_create_holds a u i st s st' :
  create_session (Services := Ref.services) a u i st = (Ok s, st') ->
  Ref.held st' a u i s.
Proof.
  simpl. unfold Ref.insert_session, Ref.held. intros H.
  injection H as <- <-. simpl. apply lookup_insert_eq.
Qed.

Lemma ref_get_returns a u i st s :
  Ref.held st a u i s ->
  exists s' st',
    get_session (Services := Ref.services) a u i st = (Ok (Some s'), st')
    /\ id s' = id s.
Proof.
  simpl. unfold Ref.held, Ref.lookup_session. intros ->. eauto.
Qed.

Lemma ref_create_keeps a u i st s a' u' i' :
  Ref.held st a u i s -> (a', u', i') <> (a, u, i) ->
  Ref.held (snd (create_session (Services := Ref.services) a' u' i' st))
           a u i s.
Proof.
  simpl. unfold Ref.held, Ref.insert_session. intros H Hne. simpl.
  rewrite lookup_insert_ne by exact Hne. exact H.
Qed.

Definition ref_keeps : KeepsSessions Ref.state (Services0 := Ref.services) :=
  Build_KeepsSessions Ref.state Ref.services Ref.held
    ref_create_holds ref_get_returns
    (fun a u i st s a' u' i' H => H)
    ref_create_keeps
    (fun a u i st s u' i' m H => H).

End RefStore.

(** Without that contract the handlers give no such guarantee: on a
    store whose every fetch raises, each request creates again. *)
Remark failing_fetch_creates_each_time :
  creations (lit "course_creation") (lit "test_user") (lit "test_session")
    (trace (serve_all (Services0 := Ref.flaky) [Ref.request; Ref.request]
                      (Ref.fresh [])))
  = 2%nat.
Proof. vm_compute. reflexivity. Qed.


(** ** One triple at a time *)

Section Filed.
Context {St : Type} `{!Services St} (u i : str).
Context `{!FilesTriple St adk_app_name u i}.





End Filed.

(** A store that keeps its sessions files every triple. *)
Definition keeps_files {St : Type} `{!Services St} `{!KeepsSessions St}
           (a u i : str) : FilesTriple St a u i :=
  Build_FilesTriple St _ a u i
    (fun st s => holds st a u i s)
    (fun st s st' H => create_holds a u i st s st' H)
    (fun st s H => get_returns a u i st s H)
    (fun st s a' u' i' H => get_keeps a u i st s a' u' i' H)
    (fun st s a' u' i' H Hne => create_keeps a u i st s a' u' i' H Hne)
    (fun st s u' i' m H => run_keeps a u i st s u' i' m H).

(** The ADK-like store files the triples whose session id is not empty
    and has no whitespace at its ends. *)
Section AdkStore.
Context (a u i : str).
Hypothesis Hstrip : strip i = i.
Hypothesis Hi : i <> [].





End AdkStore.



(** ** What an event adds to the text *)

Section Contribution.

Lemma texts_app (ps1 ps2 : list Part) :
  Spec.texts (ps1 ++ ps2) = Spec.texts ps1 ++ Spec.texts ps2.
Proof.
  induction ps1 as [|p ps1 IH]; simpl; [reflexivity|].
  destruct (text p) as [[|c t]|]; simpl; rewrite IH; reflexivity.
Qed.

Lemma texts_skip (ps1 ps2 : list Part) (o : option str) :
  truthy o = false ->
  Spec.texts (ps1 ++ {| text := o |} :: ps2) = Spec.texts (ps1 ++ ps2).
Proof.
  intros Ho. rewrite !texts_app. simpl.
  destruct o as [[|c t]|]; [reflexivity | discriminate | reflexivity].
Qed.

End Contribution.

(** C6.  In the buffered loops (app, judge) and in the streaming loop
    (orchestrator) an event without content, with [parts] absent or with
    an empty [parts] leaves the text as it was; a part whose text is
    absent or empty can be deleted from an event without changing what
    the loops build; and what an event adds is the text of its parts
    that carry non-empty text, in part order (each followed by a newline
    in the buffered loops, bare in the streaming loop). *)
Theorem empty_parts_contribute_nothing (final_text : str) :
  (forall a,
      let e := {| author := a; content := None |} in
      App.on_event final_text e = final_text
      /\ Judge.on_event final_text e = final_text
      /\ Orchestrator.accumulate final_text e = final_text)
  /\ (forall a r,
        let e := {| author := a;
                    content := Some {| role := r; parts := None |} |} in
        App.on_event final_text e = final_text
        /\ Judge.on_event final_text e = final_text
        /\ Orchestrator.accumulate final_text e = final_text)
  /\ (forall a r,
        let e := {| author := a;
                    content := Some {| role := r; parts := Some [] |} |} in
        App.on_event final_text e = final_text
        /\ Judge.on_event final_text e = final_text
        /\ Orchestrator.accumulate final_text e = final_text)
  /\ (forall ps1 ps2 o,
        o = None \/ o = Some [] ->
        App.for_parts final_text (ps1 ++ {| text := o |} :: ps2)
          = App.for_parts final_text (ps1 ++ ps2)
        /\ Judge.for_parts final_text (ps1 ++ {| text := o |} :: ps2)
           = Judge.for_parts final_text (ps1 ++ ps2)
        /\ Orchestrator.for_parts final_text (ps1 ++ {| text := o |} :: ps2)
           = Orchestrator.for_parts final_text (ps1 ++ ps2))
  /\ (forall e,
        App.on_event final_text e
          = final_text ++ concat (map with_newline (Spec.fromEvent e))
        /\ Judge.on_event final_text e
           = final_text ++ concat (map with_newline (Spec.fromEvent e))
        /\ Orchestrator.accumulate final_text e
           = final_text ++ concat (Spec.fromEvent e)).
Proof.
  repeat split; try reflexivity.
  - rewrite !app_for_parts, texts_skip; [reflexivity|].
    destruct H as [-> | ->]; reflexivity.
  - rewrite !judge_for_parts, !app_for_parts, texts_skip; [reflexivity|].
    destruct H as [-> | ->]; reflexivity.
  - rewrite !orch_for_parts, texts_skip; [reflexivity|].
    destruct H as [-> | ->]; reflexivity.
  - apply app_on_event.
  - rewrite judge_on_event. apply app_on_event.
  - apply orch_accumulate.
Qed.

Lemma empty_parts_contribute_nothing_witness :
  App.for_parts (lit "so far")
    ([Part_from_text (lit "a")] ++ {| text := Some [] |}
                                :: [Part_from_text (lit "b")])
  = App.for_parts (lit "so far")
      ([Part_from_text (lit "a")] ++ [Part_from_text (lit "b")])
  /\ Orchestrator.for_parts (lit "so far")
       ([Part_from_text (lit "a")] ++ {| text := None |}
                                   :: [Part_from_text (lit "b")])
     = lit "so farab".
Proof.
  destruct (empty_parts_contribute_nothing (lit "so far"))
    as (_ & _ & _ & H & _).
  split.
  - exact (proj1 (H [Part_from_text (lit "a")] [Part_from_text (lit "b")]
                    (Some []) (or_intror eq_refl))).
  - exact (proj2 (proj2 (H [Part_from_text (lit "a")]
                           [Part_from_text (lit "b")]
                           None (or_introl eq_refl)))).
Defined.

(** C7.  An event whose author is none of "researcher", "judge" and
    "content_builder" yields no progress line, and the text of its
    non-empty parts is in the text of the result record, between the
    texts of the events before it and after it; the other lines are the
    progress records of the other events. *)
Theorem unknown_author_text_counts (evs1 evs2 : list Event) (e : Event) :
  Spec.known_author (author e) = false ->
  Orchestrator.progress e = []
  /\ Orchestrator.for_events [] (evs1 ++ e :: evs2) None
     = (Ndjson.progress_records evs1
        ++ Ndjson.progress_records evs2
        ++ [Ndjson.result
              (strip (concat (Spec.fragments evs1)
                      ++ concat (Spec.fromEvent e)
                      ++ concat (Spec.fragments evs2)))],
        None)
  /\ (forall t,
        evs1 = [] -> evs2 = [] -> Spec.fromEvent e = [t] ->
        forallb plain (strip t) = true ->
        Orchestrator.for_events [] [e] None
        = ([Ndjson.result_plain (strip t)], None)).
Proof.
  intros Hu.
  assert (Hp : Orchestrator.progress e = []).
  { destruct (progress_cases e) as [[A _]|[[A _]|[[A _]|[_ P]]]];
      try (rewrite A in Hu; discriminate). exact P. }
  split; [exact Hp|]. split.
  - rewrite orch_for_events. cbn [fst].
    rewrite flat_map_app. cbn [flat_map]. rewrite Hp. cbn [app].
    rewrite !progress_records_wire, result_line_wire.
    unfold Spec.fragments. rewrite flat_map_app. cbn [flat_map app].
    rewrite !concat_app, <- !app_assoc. reflexivity.
  - intros t _ _ Ht Hplain.
    rewrite orch_for_events. cbn [flat_map fst]. rewrite Hp.
    unfold Spec.fragments. cbn [flat_map app]. rewrite Ht.
    cbn [app concat]. rewrite !app_nil_r.
    rewrite result_line_wire, (result_plain_wire _ Hplain). reflexivity.
Qed.

Lemma unknown_author_text_counts_witness :
  Orchestrator.for_events []
    ([Ref.event "researcher" [Some (lit " draft")]]
       ++ Ref.event "root_agent" [Some (lit " final "); None] :: [])
    None
  = ([Ndjson.researcher; Ndjson.result_plain (lit "draft final")], None)
  /\ Orchestrator.for_events []
       [Ref.event "root_agent" [Some (lit " final "); None]] None
     = ([Ndjson.result_plain (lit "final")], None).
Proof.
  destruct (unknown_author_text_counts
              [Ref.event "researcher" [Some (lit " draft")]] []
              (Ref.event "root_agent" [Some (lit " final "); None])
              eq_refl) as (_ & H & _).
  destruct (unknown_author_text_counts [] []
              (Ref.event "root_agent" [Some (lit " final "); None])
              eq_refl) as (_ & _ & H').
  split; [exact H|].
  exact (H' (lit " final ") eq_refl eq_refl eq_refl eq_refl).
Defined.

(** ** Feedback *)

(** C8.  [collect_feedback] (app and orchestrator servers) answers
    [{"status": "success"}] for every feedback record and leaves the
    state behind the services as it was; it only logs the record.
    Called twice with the same record it gives the same answer twice
    and the state is still the one before the first call. *)
Theorem feedback_always_succeeds {St : Type} (feedback : Feedback.t)
        (w : world St) :
  let success : result dict := Ok [(lit "status", lit "success")] in
  let a1 := App.collect_feedback feedback w in
  let a2 := App.collect_feedback feedback (snd a1) in
  let o1 := Orchestrator.collect_feedback feedback w in
  let o2 := Orchestrator.collect_feedback feedback (snd o1) in
  (fst a1 = success /\ fst a2 = success
   /\ ext (snd a1) = ext w /\ ext (snd a2) = ext w
   /\ trace (snd a1) = trace w ++ [CallLogInfo feedback]
   /\ trace (snd a2) = trace w ++ [CallLogInfo feedback; CallLogInfo feedback])
  /\ (fst o1 = success /\ fst o2 = success
      /\ ext (snd o1) = ext w /\ ext (snd o2) = ext w
      /\ trace (snd o1) = trace w ++ [CallLogInfo feedback]
      /\ trace (snd o2) = trace w ++ [CallLogInfo feedback; CallLogInfo feedback]).
Proof.
  cbv zeta. unfold App.collect_feedback, Orchestrator.collect_feedback.
  cbn [fst snd ext trace].
  repeat split; rewrite <- app_assoc; reflexivity.
Qed.

(** ** The empty turn *)

(** C9.  When the runner yields no event and ends normally, [/api/chat]
    answers [{"response": ""}] and [/api/chat_stream] sends one line,
    the result record with the empty text; neither fails. *)
Theorem empty_turn_is_answered {St : Type} `{!Services St}
        (request : SimpleChatRequest) (w : world St)
        (session : Session) (w1 w2 : world St) :
  ensure_session request w = (Ok session, w1) ->
  iterate_run_async (user_id request) (id session) (user_message request) w1
    = (([], None), w2) ->
  App.chat request w = (Ok [(lit "response", [])], w2)
  /\ Judge.chat request w = (Ok [(lit "response", [])], w2)
  /\ Orchestrator.serve_chat_stream request w
     = (Ok ([empty_result_line], None), w2)
  /\ is_result empty_result_line = true.
Proof.
  intros Hs Hrun.
  split; [exact (app_chat_completes _ _ _ _ _ _ Hs Hrun)|].
  split; [exact (judge_chat_completes _ _ _ _ _ _ Hs Hrun)|].
  split; [exact (serve_chat_stream_completes _ _ _ _ _ _ _ Hs Hrun)|].
  reflexivity.
Qed.

Lemma empty_turn_is_answered_witness :
  fst (App.chat (Services0 := Ref.services) Ref.request (Ref.fresh []))
  = Ok [(lit "response", [])]
  /\ fst (Orchestrator.serve_chat_stream (Services0 := Ref.services)
            Ref.request (Ref.fresh []))
     = Ok ([empty_result_line], None).
Proof.
  edestruct (empty_turn_is_answered (Services0 := Ref.services) Ref.request
               (Ref.fresh [])) as (Ha & _ & Ho & _).
  - reflexivity.
  - reflexivity.
  - exact (conj (f_equal fst Ha) (f_equal fst Ho)).
Defined.

(** ** Progress by author *)

Section Progress.

Lemma progress_known (event : Event) :
  Spec.known_author (author event) = true ->
  exists t, Orchestrator.progress event = [Orchestrator.progress_line t].
Proof.
  intros Hk.
  destruct (progress_cases event) as [[_ P]|[[_ P]|[[_ P]|[A _]]]];
    eauto; congruence.
Qed.

Lemma count_progress_lines (events : list Event) :
  length (filter (fun l => is_progress l = true)
                 (flat_map Orchestrator.progress events))
  = length (filter (fun e => Spec.known_author (author e) = true) events).
Proof.
  induction events as [|e events IH]; [reflexivity|].
  cbn [flat_map]. rewrite filter_app, length_app, IH.
  destruct (Spec.known_author (author e)) eqn:Hk.
  - destruct (progress_known e Hk) as [t ->].
    rewrite filter_cons_True by apply progress_line_is_progress.
    rewrite filter_cons_True by exact Hk.
    reflexivity.
  - rewrite filter_cons_False by (rewrite Hk; discriminate).
    destruct (progress_cases e) as [[A _]|[[A _]|[[A _]|[_ ->]]]];
      try (unfold Spec.known_author in Hk; rewrite A in Hk; discriminate).
    reflexivity.
Qed.

End Progress.

(** C10.  Whether an event yields a progress line is decided by its
    author alone: two events of the same author yield the same lines
    whatever their content; an event by "researcher", "judge" or
    "content_builder" yields exactly one line, a progress record, also
    with no content or with many parts; no event yields more than one;
    and a stream has as many progress records as the turn has events by
    these three authors. *)
Theorem progress_depends_on_author_only :
  (forall e1 e2 : Event,
      author e1 = author e2 ->
      Orchestrator.progress e1 = Orchestrator.progress e2)
  /\ (forall (a : str) (c : option Content),
        Spec.known_author a = true ->
        exists line,
          Orchestrator.progress {| author := a; content := c |} = [line]
          /\ is_progress line = true)
  /\ (forall e : Event, (length (Orchestrator.progress e) <= 1)%nat)
  /\ (forall (events : list Event) (err : option exn),
        length (filter (fun l => is_progress l = true)
                       (fst (Orchestrator.for_events [] events err)))
        = length (filter (fun e => Spec.known_author (author e) = true)
                         events)).
Proof.
  split; [|split; [|split]].
  - intros e1 e2 H. unfold Orchestrator.progress. rewrite H. reflexivity.
  - intros a c Hk.
    destruct (progress_known {| author := a; content := c |} Hk) as [t ->].
    eexists. split; [reflexivity | apply progress_line_is_progress].
  - apply progress_length.
  - intros events err. rewrite orch_for_events. cbn [fst].
    rewrite filter_app, length_app, count_progress_lines.
    destruct err as [e|].
    + simpl. lia.
    + rewrite filter_cons_False
        by (rewrite result_line_not_progress; discriminate).
      simpl. lia.
Qed.

Lemma progress_depends_on_author_only_witness :
  Orchestrator.progress {| author := lit "judge"; content := None |}
  = Orchestrator.progress
      (Ref.event "judge" [Some (lit "a"); Some (lit "b"); Some (lit "c")])
  /\ exists line,
      Orchestrator.progress
        (Ref.event "judge" [Some (lit "a"); Some (lit "b"); Some (lit "c")])
      = [line]
      /\ is_progress line = true.
Proof.
  destruct progress_depends_on_author_only as (H1 & H2 & _).
  split.
  - exact (H1 {| author := lit "judge"; content := None |}
              (Ref.event "judge" [Some (lit "a"); Some (lit "b"); Some (lit "c")])
              eq_refl).
  - exact (H2 (lit "judge") _ eq_refl).
Defined.

(** * Further properties of the handlers *)

(** ** What [strip] leaves *)

Section StripShape.

Lemma lstrip_head (s : str) :
  lstrip s = [] \/ exists c r, lstrip s = c :: r /\ isspace c = false.
Proof.
  induction s as [|c s IH]; simpl; [left; reflexivity|].
  destruct (isspace c) eqn:Hc; [exact IH|].
  right. eauto.
Qed.

Lemma lstrip_split (s : str) :
  exists p, s = p ++ lstrip s /\ forallb isspace p = true.
Proof.
  induction s as [|c s (p & Hp & Hs)]; simpl.
  - exists []. split; reflexivity.
  - destruct (isspace c) eqn:Hc.
    + exists (c :: p). simpl. rewrite Hc, Hs. split; [congruence | reflexivity].
    + exists []. split; reflexivity.
Qed.

Lemma rstrip_split (s : str) :
  exists q, s = rstrip s ++ q /\ forallb isspace q = true.
Proof.
  destruct (lstrip_split (rev s)) as (p & Hp & Hs).
  exists (rev p). split.
  - unfold rstrip. rewrite <- rev_app_distr, <- Hp. symmetry. apply rev_involutive.
  - rewrite forallb_forall in *. intros c Hc. apply Hs, in_rev. exact Hc.
Qed.

Lemma rstrip_last (s : str) :
  rstrip s = [] \/ exists r c, rstrip s = r ++ [c] /\ isspace c = false.
Proof.
  unfold rstrip.
  destruct (lstrip_head (rev s)) as [-> | (c & r & -> & Hc)];
    [left; reflexivity|].
  right. exists (rev r), c. split; [reflexivity | exact Hc].
Qed.

Lemma lstrip_id (s : str) (c : N) (r : str) :
  s = c :: r -> isspace c = false -> lstrip s = s.
Proof. intros -> Hc. simpl. rewrite Hc. reflexivity. Qed.

Lemma rstrip_id (r : str) (c : N) :
  isspace c = false -> rstrip (r ++ [c]) = r ++ [c].
Proof.
  intros Hc. unfold rstrip. rewrite rev_app_distr. simpl. rewrite Hc.
  simpl. rewrite rev_involutive. reflexivity.
Qed.

(** The stripped text is empty, or begins and ends with a character
    that is not whitespace. *)
Lemma strip_shape (s : str) :
  strip s = []
  \/ (exists c r, strip s = c :: r /\ isspace c = false)
     /\ (exists r c, strip s = r ++ [c] /\ isspace c = false).
Proof.
  unfold strip.
  destruct (rstrip_last (lstrip s)) as [-> | (r & c & Hr & Hc)];
    [left; reflexivity|].
  right. split; [|eauto].
  destruct (rstrip_split (lstrip s)) as (q & Hq & _).
  destruct (lstrip_head s) as [Hl | (c0 & r0 & Hl & Hc0)].
  - rewrite Hl in Hr. destruct r; discriminate.
  - rewrite Hl in Hq. rewrite Hl.
    destruct (rstrip (c0 :: r0)) as [|c1 r1] eqn:E.
    + rewrite Hl, E in Hr. destruct r; discriminate.
    + simpl in Hq. injection Hq as <- _. eauto.
Qed.

Lemma strip_all_space (s : str) :
  strip s = [] <-> forallb isspace s = true.
Proof.
  split.
  - intros H. unfold strip in H.
    destruct (lstrip_split s) as (p & Hp & Hps).
    destruct (rstrip_split (lstrip s)) as (q & Hq & Hqs).
    rewrite H in Hq. simpl in Hq.
    rewrite Hp, Hq, forallb_app, Hps, Hqs. reflexivity.
  - intros H. unfold strip. rewrite (lstrip_all_space s H). reflexivity.
Qed.

Lemma strip_idempotent (s : str) : strip (strip s) = strip s.
Proof.
  destruct (strip_shape s) as [-> | [(c & r & H1 & Hc) (r' & c' & H2 & Hc')]];
    [reflexivity|].
  unfold strip at 1. rewrite (lstrip_id _ c r H1 Hc).
  rewrite H2. apply rstrip_id. exact Hc'.
Qed.

Lemma forallb_concat_space (xs : list str) :
  forallb isspace (concat xs) = forallb (forallb isspace) xs.
Proof.
  induction xs as [|x xs IH]; simpl; [reflexivity|].
  rewrite forallb_app, IH. reflexivity.
Qed.

Lemma forallb_with_newline_space (xs : list str) :
  forallb isspace (concat (map with_newline xs))
  = forallb (forallb isspace) xs.
Proof.
  induction xs as [|x xs IH]; simpl; [reflexivity|].
  unfold with_newline at 1. rewrite !forallb_app, IH. simpl.
  rewrite andb_true_r. reflexivity.
Qed.

End StripShape.

(** ** The three handlers side by side *)

Section SideBySide.
Context {St : Type} `{!Services St}.

Lemma judge_chat_is_app_chat (request : SimpleChatRequest) (w : world St) :
  Judge.chat request w = App.chat request w.
Proof.
  unfold Judge.chat, App.chat, bind.
  destruct (ensure_session request w) as [[session|e] w1]; [|reflexivity].
  destruct (iterate_run_async _ _ _ w1) as [[events [e|]] w2];
    [reflexivity|].
  rewrite judge_for_events. reflexivity.
Qed.

Lemma stream_world_is_app_world (request : SimpleChatRequest) (w : world St) :
  snd (Orchestrator.serve_chat_stream request w) = snd (App.chat request w).
Proof.
  unfold Orchestrator.serve_chat_stream, Orchestrator.chat_stream, App.chat,
    bind, ret.
  destruct (ensure_session request w) as [[session|e] w1]; [|reflexivity].
  cbn [Orchestrator.body_iterator]. unfold Orchestrator.event_generator.
  destruct (iterate_run_async _ _ _ w1) as [[events [e|]] w2]; reflexivity.
Qed.

Lemma serve_all_app_is_serve_all (requests : list SimpleChatRequest)
      (w : world St) :
  serve_all_app requests w = serve_all requests w.
Proof.
  revert w. induction requests as [|r rs IH]; intros w;
    cbn [serve_all_app serve_all]; [reflexivity|].
  rewrite IH. reflexivity.
Qed.

Lemma serve_all_stream_is_serve_all (requests : list SimpleChatRequest)
      (w : world St) :
  serve_all_stream requests w = serve_all requests w.
Proof.
  revert w. induction requests as [|r rs IH]; intros w;
    cbn [serve_all_stream serve_all]; [reflexivity|].
  rewrite IH, stream_world_is_app_world. reflexivity.
Qed.

(** The calls of one request, read off the world the judge handler
    leaves. *)
Lemma judge_chat_calls (request : SimpleChatRequest) (w : world St) :
  let a := adk_app_name in
  let u := user_id request in
  let i := session_id request in
  exists rest,
    trace (snd (Judge.chat request w)) = trace w ++ CallGetSession a u i :: rest
    /\ ((exists s, rest = [CallRunAsync u (id s) (user_message request)])
        \/ (exists s, rest = [CallCreateSession a u i;
                              CallRunAsync u (id s) (user_message request)])
        \/ rest = [CallCreateSession a u i]).
Proof.
  cbv zeta.
  pose proof (judge_chat_world request w) as Hw. cbv zeta in Hw.
  destruct (get_session _ _ _ (ext w)) as [r s1].
  destruct r as [[s|]|e].
  - rewrite Hw. cbn [trace]. eexists. split; [reflexivity|]. left. eauto.
  - destruct (create_session _ _ _ s1) as [[s|e] s2]; rewrite Hw;
      cbn [trace]; eexists; (split; [reflexivity|]); eauto.
  - destruct (create_session _ _ _ s1) as [[s|e'] s2]; rewrite Hw;
      cbn [trace]; eexists; (split; [reflexivity|]); eauto.
Qed.

End SideBySide.

(** X1.  A turn that ends by an exception: the buffered handlers raise
    that exception and give no body, whatever text the events before it
    carried; the stream has already sent the progress lines of those
    events, carries no result record and ends by the exception. *)
Theorem turn_failure {St : Type} `{!Services St}
        (request : SimpleChatRequest) (w : world St)
        (session : Session) (w1 : world St) (events : list Event)
        (e : exn) (w2 : world St) :
  ensure_session request w = (Ok session, w1) ->
  iterate_run_async (user_id request) (id session) (user_message request) w1
    = ((events, Some e), w2) ->
  App.chat request w = (Raise e, w2)
  /\ Judge.chat request w = (Raise e, w2)
  /\ Orchestrator.serve_chat_stream request w
     = (Ok (flat_map Orchestrator.progress events, Some e), w2)
  /\ Forall (fun l => is_result l = false)
            (flat_map Orchestrator.progress events).
Proof.
  intros Hs Hrun.
  assert (Ha : App.chat request w = (Raise e, w2)).
  { unfold App.chat, bind. rewrite Hs, Hrun. reflexivity. }
  split; [exact Ha|].
  split; [rewrite judge_chat_is_app_chat; exact Ha|].
  split.
  - rewrite (serve_chat_stream_completes _ _ _ _ _ _ _ Hs Hrun).
    rewrite app_nil_r. reflexivity.
  - apply Forall_flat_map, Forall_forall. intros ev _.
    eapply Forall_impl; [apply progress_all_progress|].
    intros l [_ Hl]. exact Hl.
Qed.

Lemma turn_failure_witness :
  fst (App.chat (Services0 := Ref.services) Ref.request
         (Scenario.failing Ref.root_turn Scenario.overloaded))
  = Raise Scenario.overloaded
  /\ fst (Orchestrator.serve_chat_stream (Services0 := Ref.services)
            Ref.request (Scenario.failing Ref.root_turn Scenario.overloaded))
     = Ok ([Orchestrator.progress_line Orchestrator.researcher_msg],
           Some Scenario.overloaded).
Proof.
  edestruct (turn_failure (Services0 := Ref.services) Ref.request
               (Scenario.failing Ref.root_turn Scenario.overloaded))
    as (Ha & _ & Ho & _).
  - reflexivity.
  - reflexivity.
  - exact (conj (f_equal fst Ha) (f_equal fst Ho)).
Defined.

(** X2.  When the fetch returns a session the handlers do not call
    [create_session]; they run the turn on the [id] of the session the
    store returned, which need not be the [session_id] of the request,
    and make no other call. *)
Theorem found_session_is_used {St : Type} `{!Services St}
        (request : SimpleChatRequest) (w : world St)
        (s : Session) (s1 : St) :
  get_session adk_app_name (user_id request) (session_id request) (ext w)
    = (Ok (Some s), s1) ->
  let calls :=
    [CallGetSession adk_app_name (user_id request) (session_id request);
     CallRunAsync (user_id request) (id s) (user_message request)] in
  trace (snd (App.chat request w)) = trace w ++ calls
  /\ trace (snd (Judge.chat request w)) = trace w ++ calls
  /\ trace (snd (Orchestrator.serve_chat_stream request w)) = trace w ++ calls
  /\ ext (snd (App.chat request w))
     = snd (run_async (user_id request) (id s) (user_message request) s1).
Proof.
  intros Hget. cbv zeta.
  pose proof (judge_chat_world request w) as Hw. cbv zeta in Hw.
  rewrite Hget in Hw.
  rewrite stream_world_is_app_world, <- !judge_chat_is_app_chat, Hw.
  cbn [ext trace]. repeat split; reflexivity.
Qed.

Lemma found_session_is_used_witness :
  trace (snd (Orchestrator.serve_chat_stream (Services0 := Ref.services)
                Ref.request (Scenario.with_session Ref.hello_turn)))
  = [CallGetSession (lit "course_creation") (lit "test_user")
                    (lit "test_session");
     CallRunAsync (lit "test_user") (lit "s-42") (user_message Ref.request)].
Proof.
  edestruct (found_session_is_used (Services0 := Ref.services) Ref.request
               (Scenario.with_session Ref.hello_turn)) as (_ & _ & Ho & _).
  - reflexivity.
  - exact Ho.
Defined.

(** X3.  Whatever the services answer, one request makes its calls in
    one of three shapes: a fetch and a run; a fetch, a creation and a
    run; a fetch and a creation that failed.  The fetch and the creation
    carry the triple of the request; the run carries its user id and,
    as the new message, one user-role content whose only part is the
    message of the request as it came; nothing is logged. *)
Theorem request_call_shapes {St : Type} `{!Services St}
        (request : SimpleChatRequest) (w : world St) :
  let a := adk_app_name in
  let u := user_id request in
  let i := session_id request in
  let new_message :=
    {| role := Some (lit "user");
       parts := Some [{| text := Some (message request) |}] |} in
  exists rest,
    ((exists s, rest = [CallRunAsync u (id s) new_message])
     \/ (exists s, rest = [CallCreateSession a u i;
                           CallRunAsync u (id s) new_message])
     \/ rest = [CallCreateSession a u i])
    /\ trace (snd (App.chat request w))
       = trace w ++ CallGetSession a u i :: rest
    /\ trace (snd (Judge.chat request w))
       = trace w ++ CallGetSession a u i :: rest
    /\ trace (snd (Orchestrator.serve_chat_stream request w))
       = trace w ++ CallGetSession a u i :: rest.
Proof.
  cbv zeta.
  destruct (judge_chat_calls request w) as (rest & Ht & Hshape).
  exists rest. split; [exact Hshape|].
  rewrite stream_world_is_app_world, <- !judge_chat_is_app_chat.
  repeat split; exact Ht.
Qed.

(** X4.  Whenever a buffered handler returns a body, the body is the
    one-key dict [{"response": t}] and [t] is at a fixed point of
    [strip]: it is empty or begins and ends with a character that is not
    whitespace.  The same holds for the text of the result record of a
    stream that completes. *)
Theorem answers_are_stripped {St : Type} `{!Services St}
        (request : SimpleChatRequest) (w : world St) :
  let stripped (t : str) :=
    strip t = t
    /\ (t = []
        \/ (exists c r, t = c :: r /\ isspace c = false)
           /\ (exists r c, t = r ++ [c] /\ isspace c = false)) in
  (forall body w',
      App.chat request w = (Ok body, w') \/ Judge.chat request w = (Ok body, w') ->
      exists t, body = [(lit "response", t)] /\ stripped t)
  /\ (forall lines w',
        Orchestrator.serve_chat_stream request w = (Ok (lines, None), w') ->
        exists before t,
          lines = before ++ [Orchestrator.result_line t] /\ stripped t).
Proof.
  cbv zeta. split.
  - intros body w' H.
    assert (Ha : App.chat request w = (Ok body, w'))
      by (destruct H as [H|H]; [|rewrite judge_chat_is_app_chat in H]; exact H).
    clear H. unfold App.chat, bind in Ha.
    destruct (ensure_session request w) as [[session|e] w1]; [|discriminate].
    destruct (iterate_run_async _ _ _ w1) as [[events [e|]] w2];
      [discriminate|].
    injection Ha as <- _.
    eexists. split; [reflexivity|].
    split; [apply strip_idempotent | apply strip_shape].
  - intros lines w' H.
    unfold Orchestrator.serve_chat_stream, Orchestrator.chat_stream, bind, ret
      in H.
    destruct (ensure_session request w) as [[session|e] w1]; [|discriminate].
    cbn [Orchestrator.body_iterator] in H.
    destruct (iterate_run_async (user_id request) (id session)
                (user_message request) w1) as [[events err] w2] eqn:Hrun.
    rewrite (event_generator_lines _ _ _ _ _ _ _ Hrun) in H.
    destruct err as [e|]; [discriminate|].
    injection H as <- _.
    eexists _, _. split; [reflexivity|]. unfold Spec.streamed.
    split; [apply strip_idempotent | apply strip_shape].
Qed.

Lemma answers_are_stripped_witness :
  exists t,
    fst (App.chat (Services0 := Ref.services) Ref.request
           (Ref.fresh Ref.root_turn))
    = Ok [(lit "response", t)]
    /\ strip t = t.
Proof.
  destruct (answers_are_stripped (Services0 := Ref.services) Ref.request
              (Ref.fresh Ref.root_turn)) as [H _].
  edestruct H as (t & Hb & Hs & _).
  - left. apply injective_projections; reflexivity.
  - exists t. split; [rewrite <- Hb; reflexivity | exact Hs].
Defined.

(** ** Empty answers *)

Section Empty.

Lemma escape_char_not_nil (c : N) : Json.escape_char c <> [].
Proof.
  unfold Json.escape_char, Json.u_escape.
  repeat match goal with
         | |- context [if ?b then _ else _] => destruct b
         end; discriminate.
Qed.

Lemma result_line_empty_inv (t : str) :
  Orchestrator.result_line t = empty_result_line -> t = [].
Proof.
  change empty_result_line with (Orchestrator.result_line []).
  unfold Orchestrator.result_line. rewrite !record_line_prefix.
  intros H. apply app_inv_head in H.
  apply app_inv_head in H. apply app_inv_head in H.
  apply app_inv_tail in H.
  unfold Json.encode_str in H. apply app_inv_head in H.
  apply app_inv_tail in H.
  destruct t as [|c t]; [reflexivity|]. simpl in H.
  apply app_eq_nil in H. destruct H as [H _].
  destruct (escape_char_not_nil c H).
Qed.

End Empty.

(** X5.  The buffered answer of a turn is empty exactly when every text
    part of the turn is whitespace, and exactly then the result record
    of the stream for the same events carries the empty text. *)
Theorem empty_answers_agree (events : list Event) :
  (strip (App.for_events [] events) = []
   <-> forallb (forallb isspace) (Spec.fragments events) = true)
  /\ (Orchestrator.for_events [] events None
      = (flat_map Orchestrator.progress events ++ [empty_result_line], None)
      <-> forallb (forallb isspace) (Spec.fragments events) = true).
Proof.
  split.
  - rewrite strip_all_space, app_for_events. simpl.
    rewrite forallb_with_newline_space. reflexivity.
  - rewrite orch_for_events. simpl.
    rewrite <- forallb_concat_space, <- strip_all_space.
    split.
    + intros H. apply (f_equal fst) in H. cbn [fst] in H.
      apply app_inv_head in H.
      apply result_line_empty_inv. congruence.
    + intros ->. reflexivity.
Qed.

Lemma empty_answers_agree_witness :
  strip (App.for_events []
           [Ref.event "judge" [Some (lit "  "); None; Some newline]]) = []
  /\ Orchestrator.for_events []
       [Ref.event "judge" [Some (lit "  "); None; Some newline]] None
     = ([Orchestrator.progress_line Orchestrator.judge_msg;
         empty_result_line], None).
Proof.
  destruct (empty_answers_agree
              [Ref.event "judge" [Some (lit "  "); None; Some newline]])
    as [Ha Ho].
  exact (conj (proj2 Ha eq_refl) (proj2 Ho eq_refl)).
Defined.

(** ** The wire format of the stream *)

Section Wire.

Lemma hex_digit_printable (x : N) :
  printable (Json.hex_digit (x mod 16)) = true.
Proof.
  pose proof (N.mod_upper_bound x 16 ltac:(discriminate)) as Hlt.
  generalize dependent (x mod 16). intros m Hlt.
  unfold Json.hex_digit, printable.
  destruct (N.ltb_spec m 10);
    apply andb_true_intro; split; apply N.leb_le; lia.
Qed.

Lemma u_escape_printable (n : N) :
  forallb printable (Json.u_escape n) = true.
Proof.
  unfold Json.u_escape, Json.hex4. cbn [app forallb].
  rewrite !hex_digit_printable. reflexivity.
Qed.

Lemma escape_char_printable (c : N) :
  forallb printable (Json.escape_char c) = true.
Proof.
  unfold Json.escape_char.
  repeat match goal with
         | |- context [if ?b then _ else _] => destruct b eqn:?
         end;
    try reflexivity.
  - cbn [forallb]. unfold printable.
    match goal with H : _ && _ = true |- _ => rewrite H end. reflexivity.
  - apply u_escape_printable.
  - rewrite forallb_app, !u_escape_printable. reflexivity.
Qed.

Lemma encode_str_printable (t : str) :
  forallb printable (Json.encode_str t) = true.
Proof.
  unfold Json.encode_str. rewrite !forallb_app.
  assert (H : forallb printable (flat_map Json.escape_char t) = true).
  { induction t as [|c t IH]; [reflexivity|]. cbn [flat_map].
    rewrite forallb_app, escape_char_printable, IH. reflexivity. }
  rewrite H. reflexivity.
Qed.

Lemma forallb_rev_printable (l : str) :
  forallb printable l = true -> forallb printable (rev l) = true.
Proof.
  rewrite !forallb_forall. intros H c Hc. apply H, in_rev. exact Hc.
Qed.

Lemma dumps_printable (ty t : str) :
  forallb printable (Json.dumps [(lit "type", ty); (lit "text", t)]) = true.
Proof.
  unfold Json.dumps. cbn [map join]. unfold Json.encode_item. cbn [fst snd].
  pose proof (encode_str_printable (lit "type")) as H1.
  pose proof (encode_str_printable ty) as H2.
  pose proof (encode_str_printable (lit "text")) as H3.
  pose proof (encode_str_printable t) as H4.
  generalize dependent (Json.encode_str (lit "type")).
  generalize dependent (Json.encode_str ty).
  generalize dependent (Json.encode_str (lit "text")).
  generalize dependent (Json.encode_str t).
  intros e4 H4 e3 H3 e2 H2 e1 H1.
  rewrite !forallb_app, H1, H2, H3, H4. reflexivity.
Qed.

Lemma record_line_is_ndjson (ty t : str) :
  is_ndjson_line (Orchestrator.record_line ty t) = true.
Proof.
  unfold is_ndjson_line, Orchestrator.record_line. rewrite rev_app_distr.
  change (rev newline) with [10]. cbn [app].
  rewrite N.eqb_refl. cbn [andb].
  apply forallb_rev_printable, dumps_printable.
Qed.

End Wire.

(** X6.  Every line the generator yields, for any events and however
    the turn ends, is one NDJSON record: printable ASCII closed by a
    newline, with no newline before the end, whatever characters the
    texts of the events hold. *)
Theorem stream_lines_are_ndjson (final_text : str) (events : list Event)
        (err : option exn) :
  Forall (fun l => is_ndjson_line l = true)
         (fst (Orchestrator.for_events final_text events err)).
Proof.
  rewrite orch_for_events. cbn [fst].
  apply Forall_app. split.
  - apply Forall_flat_map, Forall_forall. intros e _.
    destruct (progress_cases e) as [[_ ->]|[[_ ->]|[[_ ->]|[_ ->]]]];
      repeat constructor; apply record_line_is_ndjson.
  - destruct err; repeat constructor. apply record_line_is_ndjson.
Qed.

(** X7.  A result text made of printable ASCII other than the double
    quote and the backslash goes on the wire as it is, between
    [{"type": "result", "text": "] and ["}] and the newline. *)
Theorem plain_text_on_the_wire (t : str) :
  forallb plain t = true ->
  Orchestrator.result_line t
  = lit "{" ++ dquote ++ lit "type" ++ dquote ++ lit ": "
    ++ dquote ++ lit "result" ++ dquote ++ lit ", "
    ++ dquote ++ lit "text" ++ dquote ++ lit ": "
    ++ dquote ++ t ++ dquote ++ lit "}" ++ newline.
Proof.
  intros H.
  assert (E : flat_map Json.escape_char t = t).
  { induction t as [|c t IH]; [reflexivity|].
    cbn [forallb] in H. apply andb_prop in H as [Hc Ht].
    cbn [flat_map]. rewrite (escape_char_plain c Hc), (IH Ht). reflexivity. }
  unfold Orchestrator.result_line. rewrite record_line_prefix.
  unfold Json.encode_str at 2. rewrite E.
  unfold type_prefix. list_assoc.
Qed.

Lemma plain_text_on_the_wire_witness :
  Orchestrator.result_line (lit "Done")
  = lit "{" ++ dquote ++ lit "type" ++ dquote ++ lit ": "
    ++ dquote ++ lit "result" ++ dquote ++ lit ", "
    ++ dquote ++ lit "text" ++ dquote ++ lit ": "
    ++ dquote ++ lit "Done" ++ dquote ++ lit "}" ++ newline.
Proof.
  exact (plain_text_on_the_wire (lit "Done") eq_refl).
Defined.

(** ** Requests read the services, not the history *)

Section Frame.
Context {St : Type} `{!Services St}.

Ltac split_calls :=
  repeat match goal with
         | |- context [get_session ?a ?u ?i ?s] =>
             destruct (get_session a u i s) as [[[?|]|?] ?]; cbn [ext trace]
         | |- context [create_session ?a ?u ?i ?s] =>
             destruct (create_session a u i s) as [[?|?] ?]; cbn [ext trace]
         | |- context [run_async ?u ?i ?m ?s] =>
             destruct (run_async u i m s) as [[? [?|]] ?]; cbn [ext trace]
         end.

Lemma app_chat_frame (request : SimpleChatRequest) (w1 w2 : world St) :
  ext w1 = ext w2 ->
  fst (App.chat request w1) = fst (App.chat request w2)
  /\ ext (snd (App.chat request w1)) = ext (snd (App.chat request w2)).
Proof.
  intros H.
  unfold App.chat, bind, ensure_session, bind, try_except,
    await_get_session, await_create_session, perform, ret, iterate_run_async.
  rewrite H. split_calls; split; reflexivity.
Qed.

Lemma serve_chat_stream_frame (request : SimpleChatRequest)
      (w1 w2 : world St) :
  ext w1 = ext w2 ->
  fst (Orchestrator.serve_chat_stream request w1)
  = fst (Orchestrator.serve_chat_stream request w2)
  /\ ext (snd (Orchestrator.serve_chat_stream request w1))
     = ext (snd (Orchestrator.serve_chat_stream request w2)).
Proof.
  intros H.
  unfold Orchestrator.serve_chat_stream, Orchestrator.chat_stream,
    Orchestrator.event_generator, bind, ensure_session, bind, try_except,
    await_get_session, await_create_session, perform, ret, iterate_run_async.
  rewrite H. split_calls; cbn [Orchestrator.body_iterator ext trace];
    split_calls; split; reflexivity.
Qed.

End Frame.

(** X8.  Feedback sent before a chat request changes nothing of it: the
    handler gives the same answer (or raises the same exception) and
    leaves the services in the same state as without the feedback, on
    the app server and on the orchestrator. *)
Theorem feedback_leaves_chat_alone {St : Type} `{!Services St}
        (feedback : Feedback.t) (request : SimpleChatRequest) (w : world St) :
  let wa := snd (App.collect_feedback feedback w) in
  let wo := snd (Orchestrator.collect_feedback feedback w) in
  fst (App.chat request wa) = fst (App.chat request w)
  /\ ext (snd (App.chat request wa)) = ext (snd (App.chat request w))
  /\ fst (Orchestrator.serve_chat_stream request wo)
     = fst (Orchestrator.serve_chat_stream request w)
  /\ ext (snd (Orchestrator.serve_chat_stream request wo))
     = ext (snd (Orchestrator.serve_chat_stream request w)).
Proof.
  cbv zeta.
  destruct (app_chat_frame request
              (snd (App.collect_feedback feedback w)) w eq_refl) as [A1 A2].
  destruct (serve_chat_stream_frame request
              (snd (Orchestrator.collect_feedback feedback w)) w eq_refl)
    as [O1 O2].
  auto.
Qed.

(** ** One session per pair on the other servers *)

(** X9.  The app server and the orchestrator resolve sessions as the
    judge server does: on a store that keeps its sessions, the first
    request on an absent pair creates the session once, no request after
    it creates one for that pair, and a later request on the pair
    fetches and runs on the [id] of the session created first. *)
Theorem session_reuse_on_other_servers {St : Type} `{!Services St}
        `{!KeepsSessions St}
        (first : SimpleChatRequest) (later : list SimpleChatRequest)
        (again : SimpleChatRequest) (w : world St)
        (s1 : St) (s : Session) (s2 : St) :
  get_session adk_app_name (user_id first) (session_id first) (ext w)
    = (Ok None, s1) ->
  create_session adk_app_name (user_id first) (session_id first) s1
    = (Ok s, s2) ->
  user_id again = user_id first ->
  session_id again = session_id first ->
  let count := creations adk_app_name (user_id first) (session_id first) in
  let last_calls :=
    [CallGetSession adk_app_name (user_id first) (session_id first);
     CallRunAsync (user_id first) (id s) (user_message again)] in
  let a2 := serve_all_app later (snd (App.chat first w)) in
  let a3 := snd (App.chat again a2) in
  let o2 := serve_all_stream later
              (snd (Orchestrator.serve_chat_stream first w)) in
  let o3 := snd (Orchestrator.serve_chat_stream again o2) in
  count (trace a3) = (count (trace w) + 1)%nat
  /\ trace a3 = trace a2 ++ last_calls
  /\ count (trace o3) = (count (trace w) + 1)%nat
  /\ trace o3 = trace o2 ++ last_calls.
Proof.
  intros Hget Hcreate Hu Hi. cbv zeta.
  rewrite !stream_world_is_app_world, serve_all_stream_is_serve_all,
    serve_all_app_is_serve_all.
  change (App.chat first w) with (Judge.chat first w).
  change (App.chat again) with (Judge.chat again).
  destruct (judge_chat_first first w s1 s s2 Hget Hcreate) as [Ht1 Hh1].
  destruct (serve_all_keeps later _ _ _ _ s eq_refl Hh1) as [Hh2 Hc2].
  assert (Hh2' : holds (ext (serve_all later (snd (Judge.chat first w))))
                       adk_app_name (user_id again) (session_id again) s)
    by (rewrite Hu, Hi; exact Hh2).
  pose proof (judge_chat_again again _ s Hh2') as Ht3.
  rewrite Hu, Hi in Ht3.
  assert (Hc : creations adk_app_name (user_id first) (session_id first)
                 (trace (snd (Judge.chat again
                                (serve_all later (snd (Judge.chat first w))))))
               = (creations adk_app_name (user_id first) (session_id first)
                            (trace w) + 1)%nat).
  { rewrite Ht3, creations_app, !creations_cons, creations_nil, Hc2, Ht1,
      creations_app, !creations_cons, creations_nil, is_creation_same.
    cbn [is_creation]. lia. }
  repeat split; assumption.
Qed.

Lemma session_reuse_on_other_servers_witness :
  creations (lit "course_creation") (lit "test_user") (lit "test_session")
    (trace
       (snd (Orchestrator.serve_chat_stream (Services0 := Ref.services)
               (default_request (lit "more"))
               (serve_all_stream (Services0 := Ref.services)
                  [Ref.other_request; Ref.request]
                  (snd (Orchestrator.serve_chat_stream
                          (Services0 := Ref.services) Ref.request
                          (Ref.fresh Ref.pipeline_turn)))))))
  = 1%nat.
Proof.
  edestruct (session_reuse_on_other_servers (Services0 := Ref.services)
               (KeepsSessions0 := ref_keeps)
               Ref.request [Ref.other_request; Ref.request]
               (default_request (lit "more")) (Ref.fresh Ref.pipeline_turn))
    as (_ & _ & H & _).
  - reflexivity.
  - reflexivity.
  - reflexivity.
  - reflexivity.
  - exact H.
Defined.

(** ** Turns taken in pieces *)

(** X10.  The loops carry nothing from one event to the next but the
    text: running them over two runs of events in a row is running them
    over the first run and then, from the text reached, over the
    second.  In the stream the lines of the first run come out first and
    do not depend on what follows them. *)
Theorem loops_compose (final_text : str) (evs1 evs2 : list Event)
        (err : option exn) :
  App.for_events final_text (evs1 ++ evs2)
  = App.for_events (App.for_events final_text evs1) evs2
  /\ Judge.for_events final_text (evs1 ++ evs2)
     = Judge.for_events (Judge.for_events final_text evs1) evs2
  /\ Orchestrator.for_events final_text (evs1 ++ evs2) err
     = (flat_map Orchestrator.progress evs1
        ++ fst (Orchestrator.for_events
                  (fold_left Orchestrator.accumulate evs1 final_text)
                  evs2 err),
        err).
Proof.
  split; [|split].
  - revert final_text. induction evs1 as [|e evs1 IH]; intros ft;
      [reflexivity | apply IH].
  - revert final_text. induction evs1 as [|e evs1 IH]; intros ft;
      [reflexivity | apply IH].
  - revert final_text. induction evs1 as [|e evs1 IH]; intros ft.
    + cbn [app flat_map fold_left]. rewrite orch_for_events. reflexivity.
    + cbn [app flat_map fold_left Orchestrator.for_events].
      rewrite IH, <- app_assoc. reflexivity.
Qed.

(** ** The agent card and the routes *)

(** X11.  The RPC URL written into the agent card is the base URL
    followed by the very path the RPC route is mounted on; the base URL
    is [APP_URL] whenever the variable is set, even to the empty string,
    and [http://0.0.0.0:8000] only when it is not set.  The card route
    and the extended card route lie under the RPC path, and the three
    routes are pairwise different as soon as the two path constants are
    non-empty and different. *)
Theorem card_url_matches_route (name well_known extended : str)
        (environ : gmap (list N) (list N)) :
  let card := AgentCard.build_dynamic_agent_card name environ in
  let r := AgentCard.lifespan name well_known extended in
  (exists base,
      AgentCard.rpc_url card = base ++ AgentCard.route_rpc_url r
      /\ (environ !! lit "APP_URL" = None -> base = lit "http://0.0.0.0:8000")
      /\ (forall v, environ !! lit "APP_URL" = Some v -> base = v))
  /\ AgentCard.agent_card_url r = AgentCard.route_rpc_url r ++ well_known
  /\ AgentCard.extended_agent_card_url r
     = AgentCard.route_rpc_url r ++ extended
  /\ (well_known <> [] -> extended <> [] -> well_known <> extended ->
      AgentCard.agent_card_url r <> AgentCard.route_rpc_url r
      /\ AgentCard.extended_agent_card_url r <> AgentCard.route_rpc_url r
      /\ AgentCard.agent_card_url r <> AgentCard.extended_agent_card_url r).
Proof.
  cbv zeta. cbn [AgentCard.rpc_url AgentCard.route_rpc_url
                   AgentCard.agent_card_url AgentCard.extended_agent_card_url
                   AgentCard.build_dynamic_agent_card AgentCard.lifespan].
  split.
  - exists (AgentCard.getenv environ (lit "APP_URL")
                             (lit "http://0.0.0.0:8000")).
    split; [reflexivity|]. unfold AgentCard.getenv, str.
    split; [intros -> | intros v ->]; reflexivity.
  - split; [reflexivity|]. split; [reflexivity|].
    intros Hw He Hne.
    assert (Hnil : forall p x : str, p ++ x = p -> x = []).
    { intros p x H. rewrite <- (app_nil_r p) in H at 2.
      exact (app_inv_head _ _ _ H). }
    repeat split.
    + intros H. exact (Hw (Hnil _ _ H)).
    + intros H. exact (He (Hnil _ _ H)).
    + intros H. exact (Hne (app_inv_head _ _ _ H)).
Qed.

Lemma card_url_matches_route_witness :
  AgentCard.rpc_url
    (AgentCard.build_dynamic_agent_card (lit "course_creation")
                                        Scenario.empty_app_url)
  = lit "/a2a/course_creation"
  /\ AgentCard.agent_card_url
       (AgentCard.lifespan (lit "course_creation") (lit "/card") (lit "/ext"))
     <> AgentCard.extended_agent_card_url
          (AgentCard.lifespan (lit "course_creation") (lit "/card")
                              (lit "/ext")).
Proof.
  destruct (card_url_matches_route (lit "course_creation") (lit "/card")
              (lit "/ext") Scenario.empty_app_url)
    as ((base & Hb & _ & Hset) & _ & _ & Hd).
  split.
  - rewrite Hb, (Hset [] eq_refl). reflexivity.
  - refine (proj2 (proj2 (Hd _ _ _))); discriminate.
Defined.
